(** * Verification of the indexing and retrieval core of discord_knowledge_bot

    Shallow embedding of the Python sources:
    - [utils/helpers.py]      : [chunk_text] and the Python string primitives it uses;
    - [indexing/storage.py]   : [ChromaStorage.add_documents], [ChromaStorage.search];
    - [indexing/collector.py] : [MessageCollector.collect_channel_messages];
    - [bot/main.py]           : [DiscordKnowledgeBot.start_indexing], [_index_server],
                                [_index_channel] and the cooperative scheduling of
                                concurrent [start_indexing] coroutines. *)

From Stdlib Require Import String Ascii List Bool Arith Lia ZArith QArith.
From Stdlib Require Import Numbers.DecimalString DecimalZ.
Import ListNotations.
Open Scope string_scope.
Open Scope list_scope.
Open Scope nat_scope.

(* ------------------------------------------------------------------ *)
(** ** Python string primitives *)

Module PyStr.

(** [str.isspace] restricted to one-byte characters: HT, LF, VT, FF, CR,
    the separators 0x1c-0x1f and SPACE. *)
Definition is_space (c : ascii) : bool :=
  let n := nat_of_ascii c in
  ((9 <=? n) && (n <=? 13)) || ((28 <=? n) && (n <=? 31)) || (n =? 32).

(** [s.split()] with no separator: maximal runs of non-whitespace characters. *)
Fixpoint split (s : string) : list string :=
  match s with
  | EmptyString => []
  | String c s' =>
      if is_space c then split s'
      else match s' with
           | EmptyString => [String c EmptyString]
           | String d _ =>
               if is_space d then String c EmptyString :: split s'
               else match split s' with
                    | w :: ws => String c w :: ws
                    | [] => [String c EmptyString]
                    end
           end
  end.

Fixpoint lstrip (s : string) : string :=
  match s with
  | EmptyString => EmptyString
  | String c s' => if is_space c then lstrip s' else s
  end.

Fixpoint rstrip (s : string) : string :=
  match s with
  | EmptyString => EmptyString
  | String c s' =>
      let r := rstrip s' in
      if is_space c && String.eqb r EmptyString then EmptyString else String c r
  end.

(** [s.strip()] *)
Definition strip (s : string) : string := lstrip (rstrip s).

(** [" ".join(ws)] *)
Definition join_space (ws : list string) : string := String.concat " " ws.

(** Whitespace normalisation [" ".join(s.split())]. *)
Definition normalize_ws (s : string) : string := join_space (split s).

End PyStr.

(* ------------------------------------------------------------------ *)
(** ** [utils/helpers.py : chunk_text] *)

Module Chunk.
Import PyStr.

(** Loop state of the [for word in text.split()] loop: [(chunks, current_chunk)]. *)
Definition chunk_step (chunk_size : nat) (st : list string * string) (word : string)
  : list string * string :=
  let (chunks, current_chunk) := st in
  if String.length current_chunk + String.length word + 1 <=? chunk_size
  then (chunks, String.append current_chunk (String.append word " "))
  else
    let chunks' := if String.eqb current_chunk "" then chunks
                   else chunks ++ [strip current_chunk] in
    (chunks', String.append word " ").

Definition chunk_text (text : string) (chunk_size : nat) : list string :=
  if String.length text <=? chunk_size then [text]
  else
    let '(chunks, current_chunk) :=
      fold_left (chunk_step chunk_size) (split text) ([], "") in
    if String.eqb current_chunk "" then chunks
    else chunks ++ [strip current_chunk].

End Chunk.

(* ------------------------------------------------------------------ *)
(** ** Python values and dicts *)

Module Py.

(** The values stored in metadata dicts and filter dicts. *)
Inductive PyVal : Type :=
| PInt (z : Z)
| PStr (s : string)
| PNone.

(** [str(v)] *)
Definition py_str (v : PyVal) : string :=
  match v with
  | PInt z => NilEmpty.string_of_int (Z.to_int z)
  | PStr s => s
  | PNone => "None"
  end.

(** A dict as its list of items in insertion order (keys distinct). *)
Definition Dict : Type := list (string * PyVal).

(** [d.get(k)] *)
Fixpoint dict_get (d : Dict) (k : string) : option PyVal :=
  match d with
  | [] => None
  | (k', v) :: d' => if String.eqb k k' then Some v else dict_get d' k
  end.

(** [d[k] = v] *)
Fixpoint dict_set (d : Dict) (k : string) (v : PyVal) : Dict :=
  match d with
  | [] => [(k, v)]
  | (k', v') :: d' => if String.eqb k k' then (k, v) :: d' else (k', v') :: dict_set d' k v
  end.

Definition pyval_eqb (a b : PyVal) : bool :=
  match a, b with
  | PInt x, PInt y => Z.eqb x y
  | PStr x, PStr y => String.eqb x y
  | PNone, PNone => true
  | _, _ => false
  end.

Fixpoint dict_eqb (a b : Dict) : bool :=
  match a, b with
  | [], [] => true
  | (k, v) :: a', (k', v') :: b' => String.eqb k k' && pyval_eqb v v' && dict_eqb a' b'
  | _, _ => false
  end.

(** A raised Python exception: its class name and [str(e)]. *)
Record PyExc : Type := mkExc { exc_type : string; exc_msg : string }.

(** Outcome of code that may raise. *)
Inductive Res (A : Type) : Type :=
| Ok (a : A)
| Err (e : PyExc).
Arguments Ok {A} a.
Arguments Err {A} e.

Definition res_bind {A B : Type} (r : Res A) (k : A -> Res B) : Res B :=
  match r with Ok a => k a | Err e => Err e end.

End Py.

(* ------------------------------------------------------------------ *)
(** ** [indexing/storage.py : ChromaStorage] *)

Module Storage.
Import Py.

(** A LlamaIndex [Document] as built by [add_documents]: its text, its
    metadata and the [doc_id] argument it was given. *)
Record LlamaDoc : Type := mkLlamaDoc {
  ld_text : string;
  ld_metadata : Dict;
  ld_doc_id : option string
}.

(** The [ValidationError] pydantic raises for [Document(doc_id=None)]
    (its message starts with this line). *)
Definition document_validation_error : PyExc :=
  mkExc "ValidationError" "1 validation error for Document".

(** [Document(text=..., metadata=..., doc_id=...)]: [doc_id] is moved to
    the field [id_ : str], so a [None] id fails validation. *)
Definition make_document (text : string) (metadata : Dict) (doc_id : option string)
  : Res LlamaDoc :=
  match doc_id with
  | Some _ => Ok (mkLlamaDoc text metadata doc_id)
  | None => Err document_validation_error
  end.

(** The loop [for i, doc_text in enumerate(documents)] building [llama_docs],
    from index [i]. *)
Fixpoint build_llama_docs (metadatas : list Dict) (ids : list string) (i : nat)
    (documents : list string) : Res (list LlamaDoc) :=
  match documents with
  | [] => Ok []
  | doc_text :: rest =>
      res_bind (make_document doc_text
                  (if i <? List.length metadatas then nth i metadatas [] else [])
                  (if i <? List.length ids then Some (nth i ids "") else None))
        (fun llama_doc =>
      res_bind (build_llama_docs metadatas ids (S i) rest) (fun llama_docs =>
      Ok (llama_doc :: llama_docs)))
  end.

Definition make_llama_docs (documents : list string) (metadatas : list Dict)
    (ids : list string) : Res (list LlamaDoc) :=
  build_llama_docs metadatas ids 0 documents.

Section AddDocuments.
(** The vector index behind [self.index]; [index_insert] is [self.index.insert(doc)]
    (embedding and persistence, which may raise). The lazy
    [_ensure_embed_model_initialized()] is taken to have loaded the model. *)
Variable Index : Type.
Variable index_insert : Index -> LlamaDoc -> Res Index.

Fixpoint insert_all (idx : Index) (docs : list LlamaDoc) : Res Index :=
  match docs with
  | [] => Ok idx
  | d :: ds => res_bind (index_insert idx d) (fun idx' => insert_all idx' ds)
  end.

(** [ChromaStorage.add_documents(documents, metadatas, ids)]: all documents
    are built before the first insert. *)
Definition add_documents (idx : Index) (documents : list string)
    (metadatas : list Dict) (ids : list string) : Res Index :=
  res_bind (make_llama_docs documents metadatas ids) (fun llama_docs =>
  insert_all idx llama_docs).

End AddDocuments.

(** A backend whose [insert] always succeeds and records the inserted
    documents in order. *)
Definition log_insert (log : list LlamaDoc) (d : LlamaDoc) : Res (list LlamaDoc) :=
  Ok (log ++ [d]).

(** A retrieved [NodeWithScore]. *)
Record Node : Type := mkNode {
  node_text : string;
  node_metadata : Dict;
  node_score : option Q
}.

Definition qopt_eqb (a b : option Q) : bool :=
  match a, b with
  | Some x, Some y => Qeq_bool x y
  | None, None => true
  | _, _ => false
  end.

(** [==] on nodes, used by [node not in filtered_nodes]. *)
Definition node_eqb (a b : Node) : bool :=
  String.eqb (node_text a) (node_text b) && dict_eqb (node_metadata a) (node_metadata b)
  && qopt_eqb (node_score a) (node_score b).

Definition node_in (n : Node) (l : list Node) : bool := existsb (node_eqb n) l.

(** The per-node check of the metadata post-filter. *)
Definition matches_filter (filter_metadata : Dict) (node : Node) : bool :=
  forallb (fun '(key, value) =>
             match dict_get (node_metadata node) key with
             | Some v => String.eqb (py_str v) (py_str value)
             | None => false
             end) filter_metadata.

(** [retriever.retrieve(query)] with [similarity_top_k = k]: the [k] best
    candidates of the backend's similarity ranking for the query. *)
Definition retrieve (ranking : list Node) (k : nat) : list Node := firstn k ranking.

(** Python truthiness of [filter_metadata] ([None] or [{}] are false). *)
Definition dict_truthy (f : option Dict) : option Dict :=
  match f with Some ((_ :: _) as d) => Some d | _ => None end.

(** The loop over [more_nodes] in the retry branch (with its [break]). *)
Definition merge_more (filter_metadata : Dict) (n_results : nat)
    (filtered_nodes more_nodes : list Node) : list Node :=
  fold_left (fun acc node =>
               if n_results <=? List.length acc then acc
               else if matches_filter filter_metadata node && negb (node_in node acc)
                    then acc ++ [node] else acc)
            more_nodes filtered_nodes.

Definition q_truthy (q : Q) : bool := negb (Qeq_bool q 0).

(** [1 - node.score if node.score else 0] *)
Definition score_to_distance (score : option Q) : Q :=
  match score with
  | Some s => if q_truthy s then Qminus 1 s else 0
  | None => 0
  end.

Record SearchResult : Type := mkResult {
  res_document : string;
  res_metadata : Dict;
  res_distance : Q;
  res_score : option Q
}.

Definition format_node (node : Node) : SearchResult :=
  mkResult (node_text node) (node_metadata node)
           (score_to_distance (node_score node)) (node_score node).

(** [ChromaStorage.search(query, n_results, filter_metadata)]; [ranking] is the
    backend's similarity order of the stored nodes for [query]. *)
Definition search (ranking : list Node) (n_results : nat) (filter_metadata : option Dict)
  : list SearchResult :=
  let nodes := retrieve ranking n_results in
  let nodes :=
    match dict_truthy filter_metadata with
    | Some f =>
        let filtered_nodes := filter (matches_filter f) nodes in
        if (List.length filtered_nodes <? n_results) && (n_results <? List.length nodes)
        then merge_more f n_results filtered_nodes
               (retrieve ranking (Nat.min (n_results * 3) 50))
        else filtered_nodes
    | None => nodes
    end in
  map format_node nodes.

End Storage.

(* ------------------------------------------------------------------ *)
(** ** [indexing/collector.py : MessageCollector.collect_channel_messages] *)

Module Collector.

(** Messages are identified by their snowflake ids; a channel's history is
    listed newest first. *)
Definition MessageId := N.

(** [channel.history(limit=limit, before=before)]: at most [limit] messages,
    newest first, restricted to those older than [before] when it is given. *)
Definition history (hist : list MessageId) (limit : nat) (before : option MessageId)
  : list MessageId :=
  firstn limit (match before with
                | None => hist
                | Some b => filter (fun m => N.ltb m b) hist
                end).

(** Python truthiness of [limit: Optional[int]]: [None] and [0] are false. *)
Definition limit_truthy (limit : option nat) : option nat :=
  match limit with Some (S k) => Some (S k) | _ => None end.

(** The [while True] loop; [fuel] bounds the number of iterations
    ([None] when it runs out, see [collect_channel_messages_some]). *)
Fixpoint collect_loop (max_messages_per_request : nat) (hist : list MessageId)
    (limit : option nat) (fuel : nat) (messages : list MessageId)
    (last_message : option MessageId) : option (list MessageId) :=
  match fuel with
  | O => None
  | S fuel' =>
      let fetch_limit :=
        match limit_truthy limit with
        | Some l => Nat.min max_messages_per_request (l - List.length messages)
        | None => max_messages_per_request
        end in
      if match limit_truthy limit with
         | Some l => l <=? List.length messages
         | None => false
         end
      then Some messages
      else
        let channel_messages := history hist fetch_limit last_message in
        match channel_messages with
        | [] => Some messages
        | _ :: _ =>
            collect_loop max_messages_per_request hist limit fuel'
              (messages ++ channel_messages) (Some (last channel_messages 0%N))
        end
  end.

(** [collect_channel_messages(channel, limit)]; the rate-limit sleep between
    pages has no effect on the result. *)
Definition collect_channel_messages (max_messages_per_request : nat)
    (hist : list MessageId) (limit : option nat) : option (list MessageId) :=
  collect_loop max_messages_per_request hist limit (S (List.length hist)) [] None.

End Collector.

(* ------------------------------------------------------------------ *)
(** ** [bot/main.py : DiscordKnowledgeBot] indexing *)

Module Bot.
Import Py Storage.

(** A Discord message as [_index_server] and [_index_channel] read it. *)
Record Msg : Type := mkMsg {
  msg_id : Z;
  msg_content : string;
  msg_has_attrs : bool;                (* [hasattr] holds for 'guild', 'channel', 'id' *)
  msg_guild : option (Z * string);     (* [message.guild]: id and name, or [None] *)
  msg_channel : Z * string;            (* [message.channel]: id and name *)
  msg_author : Z * string;             (* [message.author]: id and display name *)
  msg_created_at : string              (* [message.created_at.isoformat()] *)
}.

(** A guild channel; [ch_collected] is the outcome of
    [self.collector.collect_channel_messages(channel)] (see [Collector]):
    the collected messages, or the exception raised while paging. *)
Record Channel : Type := mkChannel {
  ch_id : Z;
  ch_name : string;
  ch_is_text : bool;                   (* [isinstance(channel, discord.TextChannel)] *)
  ch_collected : Res (list Msg)
}.

Record Guild : Type := mkGuild {
  g_id : Z;
  g_name : string;
  g_channels : list Channel
}.

Definition none_attribute_error : PyExc :=
  mkExc "AttributeError" "'NoneType' object has no attribute 'id'".

(** The body of the per-message [try] block: [doc_id] and [metadata]. *)
Definition message_document (m : Msg) : Res (string * Dict * string) :=
  match msg_guild m with
  | None => Err none_attribute_error
  | Some (gid, gname) =>
      let (cid, cname) := msg_channel m in
      let (aid, aname) := msg_author m in
      Ok (msg_content m,
          [("guild_id", PInt gid); ("guild_name", PStr gname);
           ("channel_id", PInt cid); ("channel_name", PStr cname);
           ("message_id", PInt (msg_id m));
           ("author_id", PInt aid); ("author_name", PStr aname);
           ("timestamp", PStr (msg_created_at m));
           ("content", PStr (msg_content m))],
          String.append (py_str (PInt gid))
            (String.append "_" (String.append (py_str (PInt cid))
               (String.append "_" (py_str (PInt (msg_id m)))))))
  end.

(** The loop building [documents]: messages failing [validate_object] are
    skipped, and so are those whose [try] block raises ([except ...: continue]). *)
Definition prepare_documents (batch : list Msg) : list (string * Dict * string) :=
  flat_map (fun m =>
              if msg_has_attrs m then
                match message_document m with Ok d => [d] | Err _ => [] end
              else []) batch.

(** [MessageCollector.filter_text_messages]: [msg.content and msg.content.strip()]. *)
Definition filter_text_messages (msgs : list Msg) : list Msg :=
  filter (fun m => negb (String.eqb (PyStr.strip (msg_content m)) "")) msgs.

(** [MessageCollector.collect_server_messages(guild)] over the text channels. *)
Fixpoint collect_channels (chs : list Channel) : Res (list Msg) :=
  match chs with
  | [] => Ok []
  | c :: cs => res_bind (ch_collected c) (fun ms =>
               res_bind (collect_channels cs) (fun rest => Ok (ms ++ rest)))
  end.

Definition collect_server_messages (g : Guild) : Res (list Msg) :=
  collect_channels (filter ch_is_text (g_channels g)).

(** discord.py sets [message.guild] to [channel.guild] for the messages of
    a guild channel's history: the guilds [start_indexing] can meet. *)
Definition receivable_guild (g : Guild) : bool :=
  forallb (fun ch =>
             match ch_collected ch with
             | Ok ms =>
                 forallb (fun m => match msg_guild m with
                                   | Some (gid, gname) =>
                                       Z.eqb gid (g_id g) && String.eqb gname (g_name g)
                                   | None => false
                                   end) ms
             | Err _ => true
             end) (g_channels g).

(** [for i in range(0, len(text_messages), batch_size)] with
    [batch = text_messages[i:i + batch_size]], [batch_size = 50]. *)
Fixpoint batches (fuel i : nat) (l : list Msg) : list (nat * list Msg) :=
  match fuel with
  | O => []
  | S fuel' =>
      match l with
      | [] => []
      | _ :: _ => (i, firstn 50 l) :: batches fuel' (i + 50) (skipn 50 l)
      end
  end.

Definition nat_str (n : nat) : string := py_str (PInt (Z.of_nat n)).

Section BotSec.
(** [self.storage]: the index of [ChromaStorage] and its [insert]. *)
Variable Index : Type.
Variable index_insert : Index -> LlamaDoc -> Res Index.

Record BotState : Type := mkBot {
  is_indexing : bool;
  indexing_progress : Dict;
  bot_index : Index
}.

(** The state and exception monad of the bot's methods: an exception leaves
    the state reached so far. *)
Definition M (A : Type) : Type := BotState -> Res A * BotState.

Definition mret {A : Type} (a : A) : M A := fun st => (Ok a, st).

Definition mbind {A B : Type} (m : M A) (k : A -> M B) : M B :=
  fun st => match m st with
            | (Ok a, st') => k a st'
            | (Err e, st') => (Err e, st')
            end.

Definition lift_res {A : Type} (r : Res A) : M A := fun st => (r, st).

Local Notation "x <- m ;; k" := (mbind m (fun x => k)) (at level 61, m at next level, right associativity).

(** [self.indexing_progress[key] = value] *)
Definition set_progress (key : string) (value : PyVal) : M unit :=
  fun st => (Ok tt, mkBot (is_indexing st) (dict_set (indexing_progress st) key value) (bot_index st)).

(** [self.storage.add_documents(texts, metadatas, ids)] *)
Definition store_documents (documents : list (string * Dict * string)) : M unit :=
  fun st =>
    match add_documents Index index_insert (bot_index st)
            (map (fun d => fst (fst d)) documents) (map (fun d => snd (fst d)) documents)
            (map snd documents) with
    | Ok idx => (Ok tt, mkBot (is_indexing st) (indexing_progress st) idx)
    | Err e => (Err e, st)
    end.

(** [if documents: ... self.storage.add_documents(...)] *)
Definition store_if_any (documents : list (string * Dict * string)) : M unit :=
  match documents with [] => mret tt | _ :: _ => store_documents documents end.

Fixpoint index_batches (total : nat) (bs : list (nat * list Msg)) : M unit :=
  match bs with
  | [] => mret tt
  | (i, batch) :: bs' =>
      _ <- store_if_any (prepare_documents batch) ;;
      let processed := Nat.min (i + 50) total in
      _ <- set_progress "processed" (PInt (Z.of_nat processed)) ;;
      _ <- set_progress "status"
             (PStr (String.append "Processed " (String.append (nat_str processed)
                      (String.append "/" (String.append (nat_str total) " messages"))))) ;;
      index_batches total bs'
  end.

(** [_index_server(guild)] (the [asyncio.sleep] between batches omitted). *)
Definition index_server (g : Guild) : M unit :=
  messages <- lift_res (collect_server_messages g) ;;
  let text_messages := filter_text_messages messages in
  _ <- set_progress "total" (PInt (Z.of_nat (List.length text_messages))) ;;
  _ <- set_progress "status" (PStr "Processing messages...") ;;
  index_batches (List.length text_messages)
    (batches (List.length text_messages) 0 text_messages).

(** [_index_channel(channel)] *)
Definition index_channel (ch : Channel) : M unit :=
  messages <- lift_res (ch_collected ch) ;;
  let text_messages := filter_text_messages messages in
  _ <- set_progress "total" (PInt (Z.of_nat (List.length text_messages))) ;;
  _ <- set_progress "status" (PStr "Processing messages...") ;;
  _ <- store_if_any (prepare_documents text_messages) ;;
  _ <- set_progress "processed" (PInt (Z.of_nat (List.length text_messages))) ;;
  set_progress "status" (PStr (String.append "Processed "
                          (String.append (nat_str (List.length text_messages)) " messages"))).

Definition get_guild (guilds : list Guild) (guild_id : Z) : option Guild :=
  find (fun g => Z.eqb (g_id g) guild_id) guilds.

Definition get_channel (g : Guild) (channel_id : Z) : option Channel :=
  find (fun c => Z.eqb (ch_id c) channel_id) (g_channels g).

Definition completed : bool * string := (true, "Indexing completed successfully").

(** The [try] block of [start_indexing]. *)
Definition indexing_job (guilds : list Guild) (guild_id : Z) (channel_id : option Z)
  : M (bool * string) :=
  match get_guild guilds guild_id with
  | None => mret (false, "Guild not found")
  | Some g =>
      match channel_id with
      | Some c =>
          if Z.eqb c 0 then (_ <- index_server g ;; mret completed)
          else match get_channel g c with
               | None => mret (false, "Channel not found")
               | Some ch => _ <- index_channel ch ;; mret completed
               end
      | None => _ <- index_server g ;; mret completed
      end
  end.

Definition already_in_progress : bool * string := (false, "Indexing already in progress").

(** [self.is_indexing = True; self.indexing_progress = {...}] *)
Definition enter_indexing (st : BotState) : BotState :=
  mkBot true [("status", PStr "Starting..."); ("processed", PInt 0); ("total", PInt 0)]
        (bot_index st).

(** The [finally] block. *)
Definition leave_indexing (st : BotState) : BotState := mkBot false [] (bot_index st).

(** The first, atomic segment of [start_indexing] (no [await] in it): the
    [if self.is_indexing: return ...] check, then the flag and progress set. *)
Definition start_check (st : BotState) : option (bool * string) * BotState :=
  if is_indexing st then (Some already_in_progress, st) else (None, enter_indexing st).

(** [start_indexing(guild_id, channel_id)] run to completion. *)
Definition start_indexing (guilds : list Guild) (guild_id : Z) (channel_id : option Z)
    (st : BotState) : (bool * string) * BotState :=
  match start_check st with
  | (Some r, st1) => (r, st1)
  | (None, st1) =>
      let (r, st2) := indexing_job guilds guild_id channel_id st1 in
      let result := match r with
                    | Ok v => v
                    | Err e => (false, String.append "Indexing failed: " (exc_msg e))
                    end in
      (result, leave_indexing st2)
  end.

End BotSec.

(** Concurrent [start_indexing] coroutines on the single-threaded event loop.
    A call first runs [start_check] atomically; while running, its job only
    changes [indexing_progress] and the index ([indexing_job_keeps_flag]),
    at any interleaving; its [finally] block is [leave_indexing]. *)
Section Scheduler.
Variable Index : Type.

Inductive Task : Type :=
| TPending                      (* call issued, not yet scheduled *)
| TRunning                      (* inside the [try] block *)
| TDone (r : bool * string).    (* returned [r] *)

Definition Config : Type := (BotState Index * list Task)%type.

Fixpoint list_set {A : Type} (l : list A) (i : nat) (x : A) : list A :=
  match l, i with
  | [], _ => []
  | _ :: l', O => x :: l'
  | y :: l', S i' => y :: list_set l' i' x
  end.

Definition is_running (t : Task) : bool := match t with TRunning => true | _ => false end.

Definition count_running (ts : list Task) : nat := List.length (filter is_running ts).

Inductive task_step (i : nat) : Config -> Config -> Prop :=
| ts_return (st st' : BotState Index) (ts : list Task) (r : bool * string) :
    nth_error ts i = Some TPending -> start_check Index st = (Some r, st') ->
    task_step i (st, ts) (st', list_set ts i (TDone r))
| ts_enter (st st' : BotState Index) (ts : list Task) :
    nth_error ts i = Some TPending -> start_check Index st = (None, st') ->
    task_step i (st, ts) (st', list_set ts i TRunning)
| ts_work (st : BotState Index) (ts : list Task) (progress : Dict) (idx : Index) :
    nth_error ts i = Some TRunning ->
    task_step i (st, ts) (mkBot Index (is_indexing Index st) progress idx, ts)
| ts_finish (st : BotState Index) (ts : list Task) (r : bool * string) :
    nth_error ts i = Some TRunning ->
    task_step i (st, ts) (leave_indexing Index st, list_set ts i (TDone r)).

Inductive sched_step : Config -> Config -> Prop :=
| ss_call (st : BotState Index) (ts : list Task) : sched_step (st, ts) (st, ts ++ [TPending])
| ss_task (i : nat) (c c' : Config) : task_step i c c' -> sched_step c c'.

(** From the state set by [__init__]: not indexing, empty progress. *)
Inductive reachable : Config -> Prop :=
| reach_init (idx : Index) : reachable (mkBot Index false [] idx, [])
| reach_step (c c' : Config) : reachable c -> sched_step c c' -> reachable c'.

End Scheduler.

End Bot.

(* ------------------------------------------------------------------ *)
(** ** [utils/helpers.py : clean_text, format_message_metadata] *)

Module Clean.
Import PyStr Py.

(** [re.sub(r'\s+', ' ', text)]: each maximal run of whitespace becomes one
    space; [in_run] says that the previous character was whitespace. *)
Fixpoint collapse_ws_aux (in_run : bool) (s : string) : string :=
  match s with
  | EmptyString => EmptyString
  | String c s' =>
      if is_space c then
        if in_run then collapse_ws_aux true s' else String " " (collapse_ws_aux true s')
      else String c (collapse_ws_aux false s')
  end.

Definition collapse_ws (s : string) : string := collapse_ws_aux false s.

(** [s[n:]] *)
Fixpoint sdrop (n : nat) (s : string) : string :=
  match n, s with
  | O, _ => s
  | S _, EmptyString => EmptyString
  | S n', String _ s' => sdrop n' s'
  end.

Definition newline : ascii := "010"%char.

(** The lazy group [(.*?)] followed by the closing delimiter [d]: the
    shortest prefix of [s] with no newline ([.] does not match one) that is
    followed by [d]; the group and the text after [d]. *)
Fixpoint find_close (d s : string) : option (string * string) :=
  if String.prefix d s then Some (EmptyString, sdrop (String.length d) s)
  else match s with
       | EmptyString => None
       | String c s' =>
           if Ascii.eqb c newline then None
           else match find_close d s' with
                | Some (g, rest) => Some (String c g, rest)
                | None => None
                end
       end.

(** [re.sub(D + r'(.*?)' + D, r'\1', s)] for a literal delimiter [d]: scan
    from the left; where [d] opens a match the group replaces it and the scan
    resumes after the closing [d], elsewhere one character is kept. Every
    step consumes at least one character, so [S (length s)] steps suffice. *)
Fixpoint sub_delim_fuel (fuel : nat) (d s : string) : string :=
  match fuel with
  | O => s
  | S fuel' =>
      match s with
      | EmptyString => EmptyString
      | String c s' =>
          match (if String.prefix d s then find_close d (sdrop (String.length d) s) else None) with
          | Some (g, rest) => String.append g (sub_delim_fuel fuel' d rest)
          | None => String c (sub_delim_fuel fuel' d s')
          end
      end
  end.

Definition sub_delim (d s : string) : string := sub_delim_fuel (S (String.length s)) d s.

(** One character of the URL pattern's repeated group:
    [[a-zA-Z]], [[0-9]], [[$-_@.&+]] (the range 0x24-0x5f and [@ . & +]),
    [[!*\(\),]]; the [%XX] alternative only matches characters of these. *)
Definition url_char (c : ascii) : bool :=
  let n := nat_of_ascii c in
  ((97 <=? n) && (n <=? 122)) || ((65 <=? n) && (n <=? 90)) || ((48 <=? n) && (n <=? 57))
  || ((36 <=? n) && (n <=? 95))
  || (n =? 33) || (n =? 42) || (n =? 40) || (n =? 41) || (n =? 44).

(** Length of the longest prefix of URL characters (the greedy [+]). *)
Fixpoint url_run (s : string) : nat :=
  match s with
  | EmptyString => 0
  | String c s' => if url_char c then S (url_run s') else 0
  end.

(** Length of the match of [http[s]?://(...)+] at the start of [s]: the
    optional [s] is tried first, then without it. *)
Definition url_match (s : string) : option nat :=
  if String.prefix "https://" s && (0 <? url_run (sdrop 8 s))
  then Some (8 + url_run (sdrop 8 s))
  else if String.prefix "http://" s && (0 <? url_run (sdrop 7 s))
  then Some (7 + url_run (sdrop 7 s))
  else None.

(** [re.sub(<url pattern>, '', s)] *)
Fixpoint sub_url_fuel (fuel : nat) (s : string) : string :=
  match fuel with
  | O => s
  | S fuel' =>
      match s with
      | EmptyString => EmptyString
      | String c s' =>
          match url_match s with
          | Some n => sub_url_fuel fuel' (sdrop n s)
          | None => String c (sub_url_fuel fuel' s')
          end
      end
  end.

Definition sub_url (s : string) : string := sub_url_fuel (S (String.length s)) s.

Definition clean_text (text : string) : string :=
  if String.eqb text "" then "" else
  let text := collapse_ws text in
  let text := sub_delim "**" text in    (* bold *)
  let text := sub_delim "*" text in     (* italic *)
  let text := sub_delim "`" text in     (* code *)
  let text := sub_delim "~~" text in    (* strikethrough *)
  let text := sub_delim "__" text in    (* underline *)
  let text := sub_url text in
  strip text.

End Clean.

(* ------------------------------------------------------------------ *)
(** ** [utils/helpers.py : format_message_metadata] and
       [indexing/processor.py : TextProcessor] *)

Module Processor.
Import PyStr Py Chunk Clean Bot.

Definition format_message_metadata (message : Msg) : Dict :=
  let (cid, cname) := msg_channel message in
  let (aid, aname) := msg_author message in
  [("message_id", PStr (py_str (PInt (msg_id message))));
   ("author_id", PStr (py_str (PInt aid)));
   ("author_name", PStr aname);
   ("channel_id", PStr (py_str (PInt cid)));
   ("channel_name", PStr cname);
   ("timestamp", PStr (msg_created_at message));
   ("guild_id", PStr (match msg_guild message with
                      | Some (gid, _) => py_str (PInt gid) | None => "" end));
   ("guild_name", PStr (match msg_guild message with
                        | Some (_, gname) => gname | None => "" end))].

(** A document of [process_message]: its ['id'], ['text'] and ['metadata']. *)
Record ProcDoc : Type := mkProcDoc {
  pd_id : string;
  pd_text : string;
  pd_metadata : Dict
}.

(** [f"{metadata['message_id']}_chunk_{i}"]; [metadata['message_id']] is
    [str(message.id)]. *)
Definition chunk_doc_id (message : Msg) (i : nat) : string :=
  String.append (py_str (PInt (msg_id message)))
                (String.append "_chunk_" (py_str (PInt (Z.of_nat i)))).

(** [process_message(message)] with [self.chunk_size = chunk_size]. *)
Definition process_message (chunk_size : nat) (message : Msg) : list ProcDoc :=
  let text := clean_text (msg_content message) in
  if String.eqb text "" then [] else
  let metadata := format_message_metadata message in
  let chunks := chunk_text text chunk_size in
  flat_map (fun '(i, chunk) =>
              if negb (String.eqb (strip chunk) "") then
                [mkProcDoc (chunk_doc_id message i) chunk
                   (dict_set (dict_set metadata "chunk_index" (PInt (Z.of_nat i)))
                      "total_chunks" (PInt (Z.of_nat (List.length chunks))))]
              else [])
           (combine (seq 0 (List.length chunks)) chunks).

Definition process_messages_batch (chunk_size : nat) (messages : list Msg) : list ProcDoc :=
  flat_map (process_message chunk_size) messages.

End Processor.

(* ------------------------------------------------------------------ *)
(** ** [indexing/collector.py : MessageCollector.collect_messages_generator] *)

Module CollectorGen.
Import Collector.

(** The [while True] loop of the generator: the list of yielded batches
    ([None] when [fuel] runs out); the sleep after each yield has no effect
    on the batches. *)
Fixpoint gen_loop (max_messages_per_request : nat) (hist : list MessageId)
    (limit : option nat) (fuel : nat) (total_collected : nat)
    (last_message : option MessageId) : option (list (list MessageId)) :=
  match fuel with
  | O => None
  | S fuel' =>
      if match limit_truthy limit with
         | Some l => l <=? total_collected
         | None => false
         end
      then Some []
      else
        let batch_size :=
          match limit_truthy limit with
          | Some l => Nat.min max_messages_per_request (l - total_collected)
          | None => max_messages_per_request
          end in
        let channel_messages := history hist batch_size last_message in
        match channel_messages with
        | [] => Some []
        | _ :: _ =>
            match gen_loop max_messages_per_request hist limit fuel'
                    (total_collected + List.length channel_messages)
                    (Some (last channel_messages 0%N)) with
            | Some rest => Some (channel_messages :: rest)
            | None => None
            end
        end
  end.

Definition collect_messages_generator (max_messages_per_request : nat)
    (hist : list MessageId) (limit : option nat) : option (list (list MessageId)) :=
  gen_loop max_messages_per_request hist limit (S (List.length hist)) 0 None.

End CollectorGen.

(* ------------------------------------------------------------------ *)
(** ** [chat/context_builder.py : ContextBuilder] *)

Module ContextBuilder.
Import Py Storage Bot.

(** [search_relevant_content(query, n_results, channel_id)]; [ranking] is the
    backend's similarity order of the stored nodes for [query]. *)
Definition search_relevant_content (ranking : list Node) (n_results : nat)
    (channel_id : option Z) : list SearchResult :=
  match channel_id with
  | Some c =>
      if Z.eqb c 0 then search ranking n_results None
      else search ranking n_results (Some [("channel_id", PStr (py_str (PInt c)))])
  | None => search ranking n_results None
  end.

(** A context dict; a key the dict lacks is [None] ([chat_commands.context]
    passes [{'relevant_docs': results}] alone). *)
Record Context : Type := mkContext {
  ctx_query : option string;
  ctx_relevant_docs : option (list SearchResult);
  ctx_search_performed : option bool;
  ctx_search_scope : option string
}.

Definition scope_of (channel_id : option Z) : string :=
  match channel_id with
  | Some c => if Z.eqb c 0 then "server" else "channel"
  | None => "server"
  end.

(** [build_conversation_context(query, include_search_results, channel_id)]
    (default [n_results = 5]). *)
Definition build_conversation_context (ranking : list Node) (query : string)
    (include_search_results : bool) (channel_id : option Z) : Context :=
  if include_search_results then
    mkContext (Some query) (Some (search_relevant_content ranking 5 channel_id))
              (Some true) (Some (scope_of channel_id))
  else mkContext (Some query) (Some []) (Some false) (Some (scope_of channel_id)).

(** [get_context_summary(context)] *)
Definition get_context_summary (context : Context) : string :=
  let scope := match ctx_search_scope context with Some s => s | None => "server" end in
  match ctx_relevant_docs context with
  | None | Some [] =>
      String.append "No relevant " (String.append scope " content found for this query.")
  | Some docs =>
      String.append "Found " (String.append (nat_str (List.length docs))
        (String.append " relevant messages from the "
           (String.append scope " to help answer your question.")))
  end.

(** [str.lower()] on one-byte characters: [A-Z] and the Latin-1 capitals
    0xc0-0xde (except 0xd7) move up by 0x20. *)
Definition py_lower_char (c : ascii) : ascii :=
  let n := nat_of_ascii c in
  if ((65 <=? n) && (n <=? 90)) || ((192 <=? n) && (n <=? 222) && negb (n =? 215))
  then ascii_of_nat (n + 32) else c.

Fixpoint py_lower (s : string) : string :=
  match s with
  | EmptyString => EmptyString
  | String c s' => String (py_lower_char c) (py_lower s')
  end.

(** [term in s] for strings: [term] occurs in [s] as a substring. *)
Fixpoint contains (term s : string) : bool :=
  String.prefix term s ||
  match s with
  | EmptyString => false
  | String _ s' => contains term s'
  end.

Definition server_terms : list string :=
  ["server"; "channel"; "message"; "discord"; "here"; "this"].

(** [should_use_server_context(query)] *)
Definition should_use_server_context (query : string) : bool :=
  let query_lower := py_lower query in
  existsb (fun term => contains term query_lower) server_terms.

End ContextBuilder.

(* ------------------------------------------------------------------ *)
(** ** [chat/ai_interface.py : AIInterface.format_search_results] *)

Module AIInterface.
Import Py Storage Bot Clean.

Definition key_error (k : string) : PyExc :=
  mkExc "KeyError" (String.append "'" (String.append k "'")).

(** [d[k]] *)
Definition dict_index (d : Dict) (k : string) : Res PyVal :=
  match dict_get d k with Some v => Ok v | None => Err (key_error k) end.

Definition nl : string := String newline EmptyString.

(** [document[:200] + "..."] when [len(document) > 200]. *)
Definition display_content (document : string) : string :=
  if 200 <? String.length document
  then String.append (String.substring 0 200 document) "..."
  else document.

Definition format_entry (i : nat) (result : SearchResult) : Res string :=
  let metadata := res_metadata result in
  res_bind (dict_index metadata "author_name") (fun author =>
  res_bind (dict_index metadata "channel_name") (fun channel =>
  res_bind (dict_index metadata "timestamp") (fun timestamp =>
  Ok (String.concat "" ["**"; nat_str (i + 1); ". From "; py_str author; " in #";
                       py_str channel; " ("; py_str timestamp; ")**"; nl;
                       display_content (res_document result)])))).

(** The loop [for i, result in enumerate(...)], from index [i]. *)
Fixpoint format_entries (i : nat) (results : list SearchResult) : Res (list string) :=
  match results with
  | [] => Ok []
  | r :: rs =>
      res_bind (format_entry i r) (fun e =>
      res_bind (format_entries (S i) rs) (fun es => Ok (e :: es)))
  end.

Definition format_search_results (results : list SearchResult) : Res string :=
  match results with
  | [] => Ok "No relevant content found in the server."
  | _ :: _ =>
      res_bind (format_entries 0 (firstn 3 results))
               (fun parts => Ok (String.concat (String.append nl nl) parts))
  end.

(** A double quote character. *)
Definition dq : string := String (Ascii.ascii_of_nat 34) EmptyString.

(** One item of [context_parts] in [build_context_prompt]. *)
Definition prompt_entry (i : nat) (doc : SearchResult) : Res string :=
  let metadata := res_metadata doc in
  res_bind (dict_index metadata "author_name") (fun author =>
  res_bind (dict_index metadata "channel_name") (fun channel =>
  res_bind (dict_index metadata "timestamp") (fun timestamp =>
  Ok (String.concat "" ["Message "; nat_str (i + 1); " (from "; py_str author; " in #";
                       py_str channel; " at "; py_str timestamp; "):"; nl;
                       res_document doc])))).

(** The loop [for i, doc in enumerate(...)], from index [i]. *)
Fixpoint prompt_entries (i : nat) (docs : list SearchResult) : Res (list string) :=
  match docs with
  | [] => Ok []
  | d :: ds =>
      res_bind (prompt_entry i d) (fun e =>
      res_bind (prompt_entries (S i) ds) (fun es => Ok (e :: es)))
  end.

(** The part of the prompt template before [{context}]. *)
Definition prompt_intro : string :=
  String.concat "" [
    "You are a helpful AI assistant with access to Discord server content. "; nl;
    "Use the following context from the server to answer the user's question. "; nl;
    "If the context doesn't contain relevant information, use your general knowledge."; nl;
    nl;
    "IMPORTANT: When you reference information from the server context, mark it clearly with [SERVER CONTEXT] at the beginning and [/SERVER CONTEXT] at the end. For example:"; nl;
    "- "; dq; "Based on [SERVER CONTEXT] what was discussed in the server[/SERVER CONTEXT], oranges are..."; dq; nl;
    "- "; dq; "Oranges are citrus fruits [SERVER CONTEXT] that were mentioned in the server[/SERVER CONTEXT] as..."; dq; nl;
    nl;
    "When using general knowledge (not from server context), don't add any markers."; nl;
    nl;
    "Context from Discord server:"; nl].

Definition prompt_outro : string :=
  "Please provide a helpful and accurate response, clearly marking any information that comes from the server context.".

(** [AIInterface.build_context_prompt(query, relevant_docs)]. *)
Definition build_context_prompt (query : string) (relevant_docs : list SearchResult) : Res string :=
  match relevant_docs with
  | [] => Ok (String.concat "" ["User question: "; query; nl; nl;
                                "Please answer based on your general knowledge."])
  | _ :: _ =>
      res_bind (prompt_entries 0 (firstn 3 relevant_docs)) (fun context_parts =>
      let context := String.concat (String.append nl nl) context_parts in
      Ok (String.concat "" [prompt_intro; context; nl; nl; "User question: "; query; nl; nl;
                            prompt_outro]))
  end.

End AIInterface.

(* ------------------------------------------------------------------ *)
(** ** [bot/commands/chat_commands.py]: splitting a long reply *)

Module ChatCommands.
Import Clean.

(** [[s[i:i+width] for i in range(0, len(s), width)]] *)
Fixpoint slices_fuel (fuel width : nat) (s : string) : list string :=
  match fuel with
  | O => []
  | S fuel' =>
      match s with
      | EmptyString => []
      | String _ _ => String.substring 0 width s :: slices_fuel fuel' width (sdrop width s)
      end
  end.

(** The parts a reply longer than 2000 characters is sent in ([search],
    [ask] and [context] commands). *)
Definition response_parts (s : string) : list string :=
  slices_fuel (S (String.length s)) 1900 s.

End ChatCommands.

(* ================================================================== *)
(** * Proofs *)
(* ================================================================== *)

(* ------------------------------------------------------------------ *)
(** ** Python string primitives *)

Module PyStrFacts.
Import PyStr.

(** A word as produced by [split]: non-empty, no whitespace. *)
Definition word_ok (w : string) : bool :=
  match w with
  | EmptyString => false
  | _ => forallb (fun c => negb (is_space c)) (list_ascii_of_string w)
  end.

Lemma sapp_nil_r (s : string) : String.append s "" = s.
Proof. induction s as [|c s IH]; simpl; [reflexivity | now rewrite IH]. Qed.

Lemma sapp_assoc (a b c : string) :
  String.append (String.append a b) c = String.append a (String.append b c).
Proof. induction a as [|x a IH]; simpl; [reflexivity | now rewrite IH]. Qed.

Lemma slength_app (a b : string) :
  String.length (String.append a b) = String.length a + String.length b.
Proof. induction a as [|x a IH]; simpl; [reflexivity | now rewrite IH]. Qed.

Lemma word_ok_cons (c : ascii) (w : string) :
  word_ok (String c w) = true -> is_space c = false /\ (w = "" \/ word_ok w = true).
Proof.
  simpl. intros H. apply andb_prop in H as [Hc Hw].
  split; [now destruct (is_space c) |].
  destruct w as [|d w]; [now left | right]. exact Hw.
Qed.

Lemma word_ok_rstrip (w : string) : word_ok w = true -> rstrip w = w.
Proof.
  induction w as [|c w IH]; [discriminate |].
  intros H. destruct (word_ok_cons c w H) as [Hc [-> | Hw]].
  - simpl. now rewrite Hc.
  - simpl. rewrite (IH Hw), Hc. reflexivity.
Qed.

Lemma split_cons_word (c d : ascii) (t : string) :
  is_space c = false -> is_space d = false ->
  split (String c (String d t)) =
  match split (String d t) with
  | [] => [String c EmptyString]
  | w :: ws => String c w :: ws
  end.
Proof.
  intros Hc Hd.
  change (split (String c (String d t))) with
    (if is_space c then split (String d t)
     else if is_space d then String c EmptyString :: split (String d t)
     else match split (String d t) with
          | [] => [String c EmptyString]
          | w :: ws => String c w :: ws
          end).
  now rewrite Hc, Hd.
Qed.

Lemma split_app_word (w s : string) :
  word_ok w = true ->
  (forall d t, s = String d t -> is_space d = true) ->
  split (String.append w s) = w :: split s.
Proof.
  revert s. induction w as [|c w IH]; intros s Hw Hs; [discriminate |].
  destruct (word_ok_cons c w Hw) as [Hc [-> | Hw']].
  - simpl. rewrite Hc. destruct s as [|d t]; [reflexivity |].
    now rewrite (Hs d t eq_refl).
  - destruct w as [|c' w']; [discriminate |].
    pose proof (IH s Hw' Hs) as IHs.
    destruct (word_ok_cons c' w' Hw') as [Hc' _].
    change (String.append (String c (String c' w')) s)
      with (String c (String c' (String.append w' s))).
    rewrite split_cons_word by assumption.
    change (String c' (String.append w' s)) with (String.append (String c' w') s).
    now rewrite IHs.
Qed.

Lemma join_space_cons2 (w v : string) (ws : list string) :
  join_space (w :: v :: ws) = String.append w (String " " (join_space (v :: ws))).
Proof. reflexivity. Qed.

Lemma join_space_app (xs ys : list string) :
  xs <> [] -> ys <> [] ->
  join_space (xs ++ ys) = String.append (join_space xs) (String " " (join_space ys)).
Proof.
  intros Hx Hy. induction xs as [|x xs IH]; [congruence |].
  destruct xs as [|x' xs].
  - simpl. destruct ys; [congruence | reflexivity].
  - change ((x :: x' :: xs) ++ ys) with (x :: x' :: (xs ++ ys)).
    rewrite !join_space_cons2.
    change (x' :: xs ++ ys) with ((x' :: xs) ++ ys).
    rewrite IH by discriminate. rewrite sapp_assoc. reflexivity.
Qed.

Lemma split_join (ws : list string) :
  forallb word_ok ws = true -> split (join_space ws) = ws.
Proof.
  induction ws as [|w ws IH]; intros H; [reflexivity |].
  simpl in H. apply andb_prop in H as [Hw Hws].
  destruct ws as [|v ws].
  - change (split (join_space [w])) with (split w).
    rewrite <- (sapp_nil_r w) at 1. rewrite split_app_word; [reflexivity | exact Hw |].
    intros d t E; discriminate.
  - rewrite join_space_cons2, split_app_word by (first [exact Hw | intros d t E; now injection E as <- _]).
    simpl. rewrite IH by exact Hws. reflexivity.
Qed.

Lemma split_words_ok (s : string) : forallb word_ok (split s) = true.
Proof.
  induction s as [|c s IH]; [reflexivity |].
  simpl. destruct (is_space c) eqn:Hc; [exact IH |].
  destruct s as [|d t].
  - simpl. now rewrite Hc.
  - destruct (is_space d) eqn:Hd.
    + simpl. rewrite Hc. simpl. exact IH.
    + destruct (split (String d t)) as [|w ws] eqn:E; simpl; [now rewrite Hc |].
      simpl in IH. apply andb_prop in IH as [Hw Hws].
      rewrite Hc, Hws. destruct w; [discriminate |]. simpl in *. now rewrite Hw.
Qed.

Lemma rstrip_app (x y : string) :
  rstrip (String.append x y) =
  if String.eqb (rstrip y) "" then rstrip x else String.append x (rstrip y).
Proof.
  induction x as [|c x IH]; simpl.
  - destruct (String.eqb (rstrip y) "") eqn:E; [|reflexivity].
    now apply String.eqb_eq in E.
  - rewrite IH. destruct (String.eqb (rstrip y) "") eqn:E; [reflexivity |].
    destruct x as [|c' x']; simpl.
    + rewrite E. now rewrite andb_false_r.
    + destruct (rstrip y); [discriminate | now rewrite andb_false_r].
Qed.

Lemma join_space_head (ws : list string) :
  ws <> [] -> forallb word_ok ws = true ->
  exists c t, join_space ws = String c t /\ is_space c = false.
Proof.
  intros Hne Hok. destruct ws as [|w ws]; [congruence |].
  simpl in Hok. apply andb_prop in Hok as [Hw _].
  destruct w as [|c t]; [discriminate |].
  destruct (word_ok_cons c t Hw) as [Hc _].
  destruct ws as [|v ws]; [now exists c, t |].
  rewrite join_space_cons2. simpl. eauto.
Qed.

Lemma rstrip_join (ws : list string) :
  forallb word_ok ws = true -> rstrip (join_space ws) = join_space ws.
Proof.
  induction ws as [|w ws IH]; intros H; [reflexivity |].
  simpl in H. apply andb_prop in H as [Hw Hws].
  destruct ws as [|v ws]; [exact (word_ok_rstrip w Hw) |].
  rewrite join_space_cons2, rstrip_app. simpl.
  rewrite (IH Hws).
  destruct (join_space_head (v :: ws)) as [c [t [E _]]]; [discriminate | exact Hws |].
  rewrite E. simpl. reflexivity.
Qed.

Lemma strip_join_space (ws : list string) :
  ws <> [] -> forallb word_ok ws = true ->
  strip (String.append (join_space ws) " ") = join_space ws.
Proof.
  intros Hne Hok. unfold strip. rewrite rstrip_app. simpl.
  rewrite (rstrip_join ws Hok).
  destruct (join_space_head ws Hne Hok) as [c [t [E Hc]]].
  rewrite E. simpl. now rewrite Hc.
Qed.

End PyStrFacts.

(* ------------------------------------------------------------------ *)
(** ** [chunk_text] *)

Module ChunkFacts.
Import PyStr PyStrFacts Chunk.

(** Every closed chunk is the space-join of a non-empty group of words. *)
Definition group_ok (g : list string) : Prop := g <> [] /\ forallb word_ok g = true.

(** The size bound the loop maintains: within [chunk_size] or one single word. *)
Definition group_bounded (C : nat) (g : list string) : Prop :=
  String.length (join_space g) <= C \/ exists w, g = [w].

(** Invariant of the [for word in text.split()] loop after the words [acc]:
    closed chunks are the groups [gs], the open [current_chunk] holds the
    group [wsc] followed by one space. *)
Definition chunk_inv (C : nat) (acc : list string) (st : list string * string) : Prop :=
  exists gs wsc,
    fst st = map join_space gs /\ Forall group_ok gs /\ Forall (group_bounded C) gs /\
    forallb word_ok wsc = true /\
    ((wsc = [] /\ snd st = "") \/
     (wsc <> [] /\ snd st = String.append (join_space wsc) " " /\
      (String.length (snd st) <= C \/ exists w, wsc = [w]))) /\
    concat gs ++ wsc = acc.

Lemma sapp_space_neq (x : string) : String.eqb (String.append x " ") "" = false.
Proof. destruct x; reflexivity. Qed.

Lemma chunk_step_inv (C : nat) (acc : list string) (st : list string * string) (w : string) :
  chunk_inv C acc st -> word_ok w = true -> chunk_inv C (acc ++ [w]) (chunk_step C st w).
Proof.
  destruct st as [chunks cur]. intros (gs & wsc & Hch & Hgs & Hgb & Hwsc & Hcur & Hacc) Hw.
  simpl in Hch, Hcur. unfold chunk_step.
  destruct (String.length cur + String.length w + 1 <=? C) eqn:Hle.
  - apply Nat.leb_le in Hle.
    destruct Hcur as [[-> ->] | (Hne & -> & Hb)].
    + exists gs, [w]. simpl. rewrite Hw. repeat split; auto.
      * right. split; [discriminate |]. split; [reflexivity |].
        left. rewrite slength_app. simpl in *. lia.
      * rewrite <- Hacc. now rewrite app_nil_r.
    + exists gs, (wsc ++ [w]). simpl. repeat split; auto.
      * rewrite forallb_app, Hwsc. simpl. now rewrite Hw.
      * right. split; [now destruct wsc |].
        rewrite join_space_app by (first [assumption | discriminate]).
        split.
        -- rewrite !sapp_assoc. reflexivity.
        -- left. rewrite !slength_app in *. simpl in *. lia.
      * rewrite <- Hacc. now rewrite app_assoc.
  - destruct Hcur as [[-> ->] | (Hne & -> & Hb)].
    + exists gs, [w]. simpl. rewrite Hw. repeat split; auto.
      * right. split; [discriminate |]. split; [reflexivity | right; eauto].
      * rewrite <- Hacc. now rewrite app_nil_r.
    + exists (gs ++ [wsc]), [w]. simpl. rewrite sapp_space_neq, Hw.
      repeat split; auto.
      * rewrite map_app, strip_join_space by assumption. now rewrite Hch.
      * apply Forall_app. split; [exact Hgs | constructor; [split; assumption | constructor]].
      * apply Forall_app. split; [exact Hgb |]. constructor; [| constructor].
        unfold group_bounded. destruct Hb as [Hb | Hb]; [left | right; exact Hb].
        rewrite slength_app in Hb. simpl in Hb. lia.
      * right. split; [discriminate |]. split; [reflexivity | right; eauto].
      * rewrite <- Hacc, concat_app. simpl. now rewrite app_nil_r.
Qed.

Lemma chunk_fold_inv (C : nat) (ws acc : list string) (st : list string * string) :
  chunk_inv C acc st -> forallb word_ok ws = true ->
  chunk_inv C (acc ++ ws) (fold_left (chunk_step C) ws st).
Proof.
  revert acc st. induction ws as [|w ws IH]; intros acc st Hinv Hok.
  - now rewrite app_nil_r.
  - simpl in Hok. apply andb_prop in Hok as [Hw Hws]. simpl.
    replace (acc ++ w :: ws) with ((acc ++ [w]) ++ ws) by now rewrite <- app_assoc.
    apply IH; [apply chunk_step_inv |]; assumption.
Qed.

(** Shape of the result of [chunk_text]: either the text itself, or the
    space-joins of groups of words that together are the words of the text. *)
Lemma chunk_text_shape (T : string) (C : nat) :
  (String.length T <= C /\ chunk_text T C = [T]) \/
  (C < String.length T /\ exists gs,
     chunk_text T C = map join_space gs /\ Forall group_ok gs /\
     Forall (group_bounded C) gs /\ concat gs = split T).
Proof.
  unfold chunk_text. destruct (String.length T <=? C) eqn:Hle.
  - left. split; [now apply Nat.leb_le | reflexivity].
  - right. apply Nat.leb_gt in Hle. split; [exact Hle |].
    assert (Hinv : chunk_inv C ([] ++ split T) (fold_left (chunk_step C) (split T) ([], ""))).
    { apply chunk_fold_inv; [| apply split_words_ok].
      exists [], []. simpl. repeat split; auto. }
    destruct (fold_left (chunk_step C) (split T) ([], "")) as [chunks cur].
    destruct Hinv as (gs & wsc & Hch & Hgs & Hgb & Hwsc & Hcur & Hacc). simpl in *.
    destruct Hcur as [[-> ->] | (Hne & -> & Hb)].
    + exists gs. simpl. repeat split; auto. now rewrite app_nil_r in Hacc.
    + exists (gs ++ [wsc]). rewrite sapp_space_neq, strip_join_space by assumption.
      rewrite map_app, Hch. repeat split; auto.
      * apply Forall_app. split; [exact Hgs | constructor; [split; assumption | constructor]].
      * apply Forall_app. split; [exact Hgb |]. constructor; [| constructor].
        unfold group_bounded. destruct Hb as [Hb | Hb]; [left | right; exact Hb].
        rewrite slength_app in Hb. simpl in Hb. lia.
      * rewrite concat_app. simpl. now rewrite app_nil_r.
Qed.

Lemma join_space_groups (gs : list (list string)) :
  Forall group_ok gs -> join_space (map join_space gs) = join_space (concat gs).
Proof.
  induction gs as [|g gs IH]; intros H; [reflexivity |].
  inversion H as [|? ? [Hg _] Hgs]; subst.
  destruct gs as [|g' gs].
  - simpl. now rewrite app_nil_r.
  - change (map join_space (g :: g' :: gs)) with (join_space g :: join_space g' :: map join_space gs).
    rewrite join_space_cons2.
    change (join_space g' :: map join_space gs) with (map join_space (g' :: gs)).
    rewrite (IH Hgs).
    change (concat (g :: g' :: gs)) with (g ++ concat (g' :: gs)).
    inversion Hgs as [|? ? [Hg' _] _]; subst.
    rewrite join_space_app; [reflexivity | exact Hg |].
    simpl. destruct g'; [congruence | discriminate].
Qed.

Lemma forallb_concat_groups (gs : list (list string)) :
  Forall group_ok gs -> forallb word_ok (concat gs) = true.
Proof.
  induction 1 as [|g gs [_ Hg] _ IH]; [reflexivity |].
  simpl. rewrite forallb_app, Hg. exact IH.
Qed.

End ChunkFacts.

(* ------------------------------------------------------------------ *)
(** ** Claims about [chunk_text] *)

Module ChunkClaims.
Import PyStr PyStrFacts Chunk ChunkFacts.

(** C6: for every text [T] and chunk size [C], joining the chunks of
    [chunk_text T C] with single spaces and normalising whitespace gives the
    whitespace-normalised [T]; and no chunk is empty unless [T] is empty. *)
Theorem chunk_text_roundtrip (T : string) (C : nat) :
  normalize_ws (join_space (chunk_text T C)) = normalize_ws T /\
  (forall ch, In ch (chunk_text T C) -> ch = "" -> T = "").
Proof.
  destruct (chunk_text_shape T C) as [[_ E] | [_ (gs & E & Hok & _ & Hcat)]];
    rewrite E.
  - split; [reflexivity |]. intros ch [<- | []] ->. reflexivity.
  - split.
    + unfold normalize_ws. rewrite join_space_groups by exact Hok.
      rewrite split_join by exact (forallb_concat_groups gs Hok).
      now rewrite Hcat.
    + intros ch Hin Hch. apply in_map_iff in Hin as (g & <- & Hg).
      rewrite Forall_forall in Hok. destruct (Hok g Hg) as [Hne Hw].
      destruct (join_space_head g Hne Hw) as (c & t & Ej & _).
      rewrite Ej in Hch. discriminate.
Qed.

(** C7 (amended): [chunk_text T C] never splits a word (the words of the
    chunks, in order, are the words of [T]); it is [[T]] when
    [len(T) <= C]; and every chunk longer than [C] is a single word. *)
Theorem chunk_text_words_and_bound (T : string) (C : nat) :
  concat (map split (chunk_text T C)) = split T /\
  (String.length T <= C -> chunk_text T C = [T]) /\
  (forall ch, In ch (chunk_text T C) -> String.length ch <= C \/ split ch = [ch]).
Proof.
  destruct (chunk_text_shape T C) as [[Hle E] | [Hlt (gs & E & Hok & Hb & Hcat)]].
  - rewrite E. split; [simpl; now rewrite app_nil_r |].
    split; [intros _; reflexivity |].
    intros ch [<- | []]. now left.
  - rewrite E. split; [| split].
    + rewrite map_map, <- Hcat. f_equal.
      transitivity (map (fun g => g) gs); [| apply map_id].
      apply map_ext_in. intros g Hg. rewrite Forall_forall in Hok.
      apply split_join, (Hok g Hg).
    + intros Hle. lia.
    + intros ch Hin. apply in_map_iff in Hin as (g & <- & Hg).
      rewrite Forall_forall in Hb, Hok.
      destruct (Hb g Hg) as [Hle | [w ->]]; [now left | right].
      apply split_join. exact (proj2 (Hok [w] Hg)).
Qed.

(** C7 counterexample: a word longer than the chunk size becomes a chunk
    that exceeds the chunk size. *)
Lemma chunk_text_oversized_chunk :
  In "abcdef" (chunk_text "abcdef gh" 3) /\ 3 < String.length "abcdef".
Proof. split; [vm_compute; left; reflexivity | simpl; lia]. Qed.

End ChunkClaims.

(* ------------------------------------------------------------------ *)
(** ** [ChromaStorage.add_documents] and [ChromaStorage.search] *)

Module StorageFacts.
Import Py Storage.

Lemma nth_error_combine_seq (docs : list string) (k i : nat) :
  nth_error (combine (seq k (List.length docs)) docs) i =
  option_map (fun t => (k + i, t)) (nth_error docs i).
Proof.
  revert k i. induction docs as [|t docs IH]; intros k i; [now destruct i |].
  destruct i as [|i]; simpl; [now rewrite Nat.add_0_r |].
  rewrite IH. destruct (nth_error docs i); simpl; [now rewrite Nat.add_succ_r | reflexivity].
Qed.

Lemma nth_guarded {A : Type} (l : list A) (i : nat) (d : A) :
  (if i <? List.length l then nth i l d else d) = nth i l d.
Proof.
  destruct (i <? List.length l) eqn:H; [reflexivity |].
  apply Nat.ltb_ge in H. now rewrite nth_overflow.
Qed.

Lemma nth_error_guarded {A : Type} (l : list A) (i : nat) (d : A) :
  (if i <? List.length l then Some (nth i l d) else None) = nth_error l i.
Proof.
  destruct (i <? List.length l) eqn:H.
  - apply Nat.ltb_lt in H. symmetry. now apply nth_error_nth'.
  - apply Nat.ltb_ge in H. symmetry. now apply nth_error_None.
Qed.

(** The documents [add_documents] builds when every text has an id. *)
Definition llama_docs_of (texts : list string) (mds : list Dict) (ids : list string)
  : list LlamaDoc :=
  map (fun '(i, t) => mkLlamaDoc t (nth i mds []) (Some (nth i ids "")))
      (combine (seq 0 (List.length texts)) texts).

Lemma build_llama_docs_ok (mds : list Dict) (ids : list string) (texts : list string) :
  forall i, i + List.length texts <= List.length ids ->
  build_llama_docs mds ids i texts =
  Ok (map (fun '(i, t) => mkLlamaDoc t (nth i mds []) (Some (nth i ids "")))
          (combine (seq i (List.length texts)) texts)).
Proof.
  induction texts as [|t ts IH]; intros i H; [reflexivity |].
  cbn [build_llama_docs]. rewrite nth_guarded.
  destruct (i <? List.length ids) eqn:E; [| apply Nat.ltb_ge in E; simpl in H; lia].
  cbn [make_document res_bind]. rewrite IH by (simpl in H; lia). reflexivity.
Qed.


Lemma make_llama_docs_ok (texts : list string) (mds : list Dict) (ids : list string) :
  List.length texts <= List.length ids ->
  make_llama_docs texts mds ids = Ok (llama_docs_of texts mds ids).
Proof. intros H. apply build_llama_docs_ok. lia. Qed.



Lemma llama_docs_of_nth (texts : list string) (mds : list Dict) (ids : list string) (i : nat) :
  nth_error (llama_docs_of texts mds ids) i =
  option_map (fun t => mkLlamaDoc t (nth i mds []) (Some (nth i ids ""))) (nth_error texts i).
Proof.
  unfold llama_docs_of. rewrite nth_error_map, nth_error_combine_seq.
  destruct (nth_error texts i); reflexivity.
Qed.

Lemma insert_all_log (log : list LlamaDoc) (docs : list LlamaDoc) :
  insert_all (list LlamaDoc) log_insert log docs = Ok (log ++ docs).
Proof.
  revert log. induction docs as [|d docs IH]; intros log; simpl.
  - now rewrite app_nil_r.
  - unfold log_insert at 1. simpl. rewrite IH, <- app_assoc. reflexivity.
Qed.


(** The widening branch of [search] is never entered: the first retrieval
    returns at most [n_results] nodes. *)
Lemma search_widen_guard_false (ranking : list Node) (n : nat) (f : Dict) :
  (List.length (filter (matches_filter f) (retrieve ranking n)) <? n)
  && (n <? List.length (retrieve ranking n)) = false.
Proof.
  unfold retrieve. pose proof (firstn_le_length n ranking).
  destruct (n <? List.length (firstn n ranking)) eqn:H2; [| now rewrite andb_false_r].
  apply Nat.ltb_lt in H2. lia.
Qed.

Lemma filter_true_all {A : Type} (p : A -> bool) (l : list A) :
  (forall x, p x = true) -> filter p l = l.
Proof. intros H. induction l as [|x l IH]; simpl; [reflexivity | now rewrite H, IH]. Qed.

Lemma search_with_filter (ranking : list Node) (n : nat) (f : Dict) :
  search ranking n (Some f) =
  map format_node (filter (matches_filter f) (retrieve ranking n)).
Proof.
  unfold search. destruct f as [|kv f'] eqn:Ef; simpl dict_truthy; cbv zeta.
  - rewrite filter_true_all; [reflexivity | intros x; reflexivity].
  - now rewrite <- Ef, search_widen_guard_false.
Qed.

Lemma search_none (ranking : list Node) (n : nat) :
  search ranking n None = map format_node (firstn n ranking).
Proof. reflexivity. Qed.

Lemma search_sub_top (ranking : list Node) (n : nat) (f : option Dict) (x : SearchResult) :
  In x (search ranking n f) -> exists node, In node (firstn n ranking) /\ x = format_node node.
Proof.
  destruct f as [f|]; [rewrite search_with_filter | rewrite search_none]; intros Hx;
    apply in_map_iff in Hx as (node & <- & Hn); exists node; split; auto.
  apply filter_In in Hn as [Hn _]. exact Hn.
Qed.

Lemma matches_filter_spec (f : Dict) (node : Node) :
  matches_filter f node = true <->
  (forall key value, In (key, value) f ->
     exists v, dict_get (node_metadata node) key = Some v /\ py_str v = py_str value).
Proof.
  unfold matches_filter. rewrite forallb_forall. split.
  - intros H key value Hin. specialize (H _ Hin). simpl in H.
    destruct (dict_get (node_metadata node) key) as [v|]; [| discriminate].
    exists v. split; [reflexivity | now apply String.eqb_eq].
  - intros H [key value] Hin. destruct (H key value Hin) as (v & -> & E).
    now apply String.eqb_eq.
Qed.

Lemma py_str_int_inj (z z' : Z) : py_str (PInt z) = py_str (PInt z') -> z = z'.
Proof.
  simpl. intros E. apply DecimalZ.to_int_inj.
  apply (f_equal NilEmpty.int_of_string) in E. rewrite !NilEmpty.isi in E.
  now injection E.
Qed.

End StorageFacts.

(* ------------------------------------------------------------------ *)
(** ** Claims about [ChromaStorage] *)

Module StorageClaims.
Import Py Storage StorageFacts.

(** C1 (code bug): with two candidates requested and a channel filter, the
    two matching nodes ranked 3rd and 4th lie within the widened cap
    [min(2 * 3, 50)], yet [search] returns no result: the widening branch
    is guarded by [len(nodes) > n_results], which the first retrieval of at
    most [n_results] nodes never satisfies ([search_widen_guard_false]). *)
Theorem search_filtered_misses_widened_matches :
  let ranking := [mkNode "a1" [("channel_id", PInt 1)] (Some (9 # 10));
                  mkNode "a2" [("channel_id", PInt 1)] (Some (8 # 10));
                  mkNode "b1" [("channel_id", PInt 2)] (Some (7 # 10));
                  mkNode "b2" [("channel_id", PInt 2)] (Some (6 # 10))] in
  let flt := [("channel_id", PStr "2")] in
  2 <= List.length (filter (matches_filter flt) (retrieve ranking (Nat.min (2 * 3) 50))) /\
  search ranking 2 (Some flt) = [].
Proof. split; vm_compute; [lia | reflexivity]. Qed.



(** The score a [ChromaVectorStore] retrieval reports: [math.exp(-distance)]
    of a finite distance, hence positive. *)
Definition backend_scores_positive (ranking : list Node) : Prop :=
  Forall (fun node => forall s, node_score node = Some s -> (0 < s)%Q) ranking.

(** C8: for rankings whose scores come from the backend (all positive),
    every result of [search] with a score [s] has distance [1 - s]; in
    particular for every [s] in [[0,1]]. *)
Theorem search_distance_from_score (ranking : list Node) (n : nat) (f : option Dict) :
  backend_scores_positive ranking ->
  forall r s, In r (search ranking n f) -> res_score r = Some s ->
    res_distance r = (1 - s)%Q.
Proof.
  intros Hpos r s Hr Hs.
  destruct (search_sub_top ranking n f r Hr) as (node & Hn & ->).
  assert (Hn' : In node ranking)
    by (rewrite <- (firstn_skipn n ranking); apply in_or_app; now left).
  unfold backend_scores_positive in Hpos. rewrite Forall_forall in Hpos.
  simpl in Hs |- *. rewrite Hs.
  specialize (Hpos node Hn' s Hs). unfold score_to_distance, q_truthy.
  destruct (Qeq_bool s 0) eqn:E; [| reflexivity].
  apply Qeq_bool_iff in E. unfold Qeq, Qlt in *. simpl in *. lia.
Qed.

Definition ranking_scored : list Node :=
  [mkNode "a1" [("channel_id", PInt 1)] (Some (9 # 10));
   mkNode "b1" [("channel_id", PInt 2)] (Some (7 # 10))].

Lemma search_distance_from_score_witness :
  backend_scores_positive ranking_scored /\
  (forall r s, In r (search ranking_scored 2 None) -> res_score r = Some s ->
     res_distance r = (1 - s)%Q).
Proof.
  assert (H : backend_scores_positive ranking_scored).
  { unfold backend_scores_positive, ranking_scored.
    repeat constructor; intros s E; injection E as <-; reflexivity. }
  split; [exact H | exact (search_distance_from_score ranking_scored 2 None H)].
Defined.

(** C9: the post-filter of [search] keeps exactly the candidates of the first
    retrieval for which every [(key, value)] of [filter_metadata] has [key] in
    the metadata and [str(metadata[key]) == str(value)]; a filter
    [{"channel_id": str(z)}] matches a record whose [channel_id] is the
    integer [z'] exactly when [z' = z]. *)
Theorem search_metadata_post_filter (ranking : list Node) (n : nat) (f : Dict) :
  search ranking n (Some f) = map format_node (filter (matches_filter f) (retrieve ranking n)) /\
  (forall node, matches_filter f node = true <->
     (forall key value, In (key, value) f ->
        exists v, dict_get (node_metadata node) key = Some v /\ py_str v = py_str value)) /\
  (forall node z z', dict_get (node_metadata node) "channel_id" = Some (PInt z') ->
     matches_filter [("channel_id", PStr (py_str (PInt z)))] node = Z.eqb z' z).
Proof.
  split; [apply search_with_filter |]. split; [apply matches_filter_spec |].
  intros node z z' Hget. unfold matches_filter. simpl. rewrite Hget, andb_true_r.
  destruct (Z.eqb_spec z' z) as [-> | Hne].
  - apply String.eqb_refl.
  - apply String.eqb_neq. intros E. apply Hne. now apply py_str_int_inj.
Qed.

End StorageClaims.

(* ------------------------------------------------------------------ *)
(** ** [collect_channel_messages] *)

Module CollectorFacts.
Import Collector.

(** The messages still to be paged after the cursor [before]. *)
Definition pending (hist : list MessageId) (before : option MessageId) : list MessageId :=
  match before with
  | None => hist
  | Some b => filter (fun m => N.ltb m b) hist
  end.

Lemma filter_length_lt {A : Type} (p q : A -> bool) (l : list A) (x : A) :
  (forall y, p y = true -> q y = true) -> In x l -> p x = false -> q x = true ->
  List.length (filter p l) < List.length (filter q l).
Proof.
  intros Hpq Hin Hpx Hqx. induction l as [|y l IH]; [destruct Hin |].
  destruct Hin as [-> | Hin].
  - simpl. rewrite Hpx, Hqx. simpl.
    apply Nat.lt_succ_r. clear IH. induction l as [|z l IHl]; simpl; [lia |].
    destruct (p z) eqn:Hz; [rewrite (Hpq z Hz); simpl; lia |].
    destruct (q z); simpl; lia.
  - simpl. specialize (IH Hin).
    destruct (p y) eqn:Hy; [rewrite (Hpq y Hy); simpl; lia |].
    destruct (q y); simpl; lia.
Qed.

Lemma last_in {A : Type} (l : list A) (d : A) : l <> [] -> In (last l d) l.
Proof.
  induction l as [|x l IH]; intros H; [congruence |].
  destruct l as [|y l]; [now left | right; apply IH; discriminate].
Qed.

(** Each non-empty page strictly shrinks the pending messages. *)
Lemma pending_decreases (hist : list MessageId) (before : option MessageId) (k : nat) :
  history hist k before <> [] ->
  List.length (pending hist (Some (last (history hist k before) 0%N))) <
  List.length (pending hist before).
Proof.
  intros Hne. set (m := last (history hist k before) 0%N).
  assert (Hm : In m (pending hist before)).
  { rewrite <- (firstn_skipn k (pending hist before)). apply in_or_app. left.
    unfold m. apply (last_in (history hist k before)). exact Hne. }
  destruct before as [b|]; simpl in *.
  - apply filter_In in Hm as [Hm Hmb]. apply N.ltb_lt in Hmb.
    apply (filter_length_lt _ _ _ m); [| exact Hm | apply N.ltb_irrefl | now apply N.ltb_lt].
    intros y Hy. apply N.ltb_lt in Hy. apply N.ltb_lt. lia.
  - rewrite <- (StorageFacts.filter_true_all (fun _ : MessageId => true) hist (fun _ => eq_refl)) at 2.
    apply (filter_length_lt _ _ _ m); [reflexivity | exact Hm | apply N.ltb_irrefl | reflexivity].
Qed.

Section Loop.
Variable max_messages_per_request : nat.
Variable hist : list MessageId.

Lemma collect_loop_some (limit : option nat) (fuel : nat) :
  forall messages last_message,
  List.length (pending hist last_message) < fuel ->
  exists r, collect_loop max_messages_per_request hist limit fuel messages last_message = Some r.
Proof.
  induction fuel as [|fuel IH]; intros messages last_message Hf; [lia |].
  cbn [collect_loop]. cbv zeta.
  match goal with |- context [if ?c then _ else _] => destruct c end; [eauto |].
  match goal with |- context [history hist ?k last_message] =>
    pose proof (pending_decreases hist last_message k) as Hd;
    destruct (history hist k last_message) as [|x xs] eqn:Hp end; [eauto |].
  apply IH. try rewrite Hp in Hd. specialize (Hd ltac:(discriminate)). lia.
Qed.

Lemma collect_loop_limit_zero (fuel : nat) :
  forall messages last_message,
  collect_loop max_messages_per_request hist (Some 0) fuel messages last_message =
  collect_loop max_messages_per_request hist None fuel messages last_message.
Proof.
  induction fuel as [|fuel IH]; intros messages last_message; [reflexivity |].
  cbn [collect_loop limit_truthy]. cbv zeta.
  destruct (history hist max_messages_per_request last_message); [reflexivity | apply IH].
Qed.

Lemma collect_loop_bound (l : nat) (fuel : nat) :
  0 < l ->
  forall messages last_message r,
  List.length messages <= l ->
  collect_loop max_messages_per_request hist (Some l) fuel messages last_message = Some r ->
  List.length r <= l.
Proof.
  intros Hl. destruct l as [|l]; [lia |].
  induction fuel as [|fuel IH]; intros messages last_message r Hm Hr; [discriminate |].
  cbn [collect_loop limit_truthy] in Hr. cbv zeta in Hr.
  destruct (S l <=? List.length messages) eqn:Hle; [now injection Hr as <- |].
  set (k := Nat.min max_messages_per_request (S l - List.length messages)) in Hr.
  assert (Hk : List.length (history hist k last_message) <= S l - List.length messages).
  { unfold history. rewrite length_firstn. unfold k. lia. }
  destruct (history hist k last_message) as [|x xs] eqn:Hp; [now injection Hr as <- |].
  eapply IH; [| exact Hr]. rewrite length_app. cbn [List.length] in Hk |- *. lia.
Qed.

End Loop.

End CollectorFacts.

(* ------------------------------------------------------------------ *)
(** ** Claim about [collect_channel_messages] *)

Module CollectorClaims.
Import Collector CollectorFacts.

(** C10: [collect_channel_messages] tests [limit] by truthiness: [limit=0]
    gives the same result as [limit=None] (the whole history, paged until an
    empty page, e.g. all five messages below rather than none); the loop
    always ends; and for every positive [limit] at most [limit] messages are
    returned. *)
Theorem collect_limit_truthiness (max_messages_per_request : nat) (hist : list MessageId) :
  collect_channel_messages max_messages_per_request hist (Some 0) =
  collect_channel_messages max_messages_per_request hist None /\
  collect_channel_messages 2 [5; 4; 3; 2; 1]%N (Some 0) = Some [5; 4; 3; 2; 1]%N /\
  (forall limit, exists msgs,
     collect_channel_messages max_messages_per_request hist limit = Some msgs) /\
  (forall l msgs, 0 < l ->
     collect_channel_messages max_messages_per_request hist (Some l) = Some msgs ->
     List.length msgs <= l).
Proof.
  unfold collect_channel_messages. split; [apply collect_loop_limit_zero |].
  split; [reflexivity |]. split.
  - intros limit. apply collect_loop_some. simpl. lia.
  - intros l msgs Hl. apply collect_loop_bound; [exact Hl | simpl; lia].
Qed.

End CollectorClaims.

(* ------------------------------------------------------------------ *)
(** ** [start_indexing] and its job *)

Module BotFacts.
Import Py Storage StorageFacts Bot.

Section Flag.
Variable Index : Type.
Variable index_insert : Index -> LlamaDoc -> Res Index.

(** A computation of the bot that never writes [is_indexing]. *)
Definition keeps_flag {A : Type} (m : M Index A) : Prop :=
  forall st, is_indexing Index (snd (m st)) = is_indexing Index st.

Lemma mret_keeps {A : Type} (a : A) : keeps_flag (mret Index a).
Proof. intros st. reflexivity. Qed.

Lemma lift_res_keeps {A : Type} (r : Res A) : keeps_flag (lift_res Index r).
Proof. intros st. reflexivity. Qed.

Lemma mbind_keeps {A B : Type} (m : M Index A) (k : A -> M Index B) :
  keeps_flag m -> (forall a, keeps_flag (k a)) -> keeps_flag (mbind Index m k).
Proof.
  intros Hm Hk st. unfold mbind. specialize (Hm st).
  destruct (m st) as [[a | e] st'] eqn:E; simpl in *; [now rewrite Hk | exact Hm].
Qed.

Lemma set_progress_keeps (key : string) (v : PyVal) : keeps_flag (set_progress Index key v).
Proof. intros st. reflexivity. Qed.

Lemma store_if_any_keeps (docs : list (string * Dict * string)) :
  keeps_flag (store_if_any Index index_insert docs).
Proof.
  intros st. destruct docs as [|d docs]; [reflexivity |].
  simpl. unfold store_documents.
  destruct (add_documents _ _ _ _ _ _); reflexivity.
Qed.

Create HintDb keeps.
#[local] Hint Resolve mret_keeps lift_res_keeps mbind_keeps set_progress_keeps
  store_if_any_keeps : keeps.

Lemma index_batches_keeps (total : nat) (bs : list (nat * list Msg)) :
  keeps_flag (index_batches Index index_insert total bs).
Proof.
  induction bs as [|[i batch] bs IH]; simpl; [apply mret_keeps |].
  apply mbind_keeps; [auto with keeps | intros _].
  apply mbind_keeps; [auto with keeps | intros _].
  apply mbind_keeps; [auto with keeps | intros _]. exact IH.
Qed.

(** The [try] block of [start_indexing] never writes [is_indexing]. *)
Lemma indexing_job_keeps_flag (guilds : list Guild) (guild_id : Z) (channel_id : option Z) :
  keeps_flag (indexing_job Index index_insert guilds guild_id channel_id).
Proof.
  unfold indexing_job, index_server, index_channel.
  destruct (get_guild guilds guild_id) as [g|]; [| apply mret_keeps].
  assert (Hs : keeps_flag (mbind Index (index_server Index index_insert g)
                                  (fun _ => mret Index completed))).
  { unfold index_server. repeat (apply mbind_keeps; [auto with keeps | intros ?]).
    - apply index_batches_keeps.
    - apply mret_keeps. }
  destruct channel_id as [c|]; [| exact Hs].
  destruct (Z.eqb c 0); [exact Hs |].
  destruct (get_channel g c) as [ch|]; [| apply mret_keeps].
  repeat (apply mbind_keeps; [auto with keeps | intros ?]); auto with keeps.
Qed.

End Flag.

Section Sched.
Variable Index : Type.

Lemma count_running_set (ts : list Task) (i : nat) (t x : Task) :
  nth_error ts i = Some t ->
  count_running (list_set ts i x) + (if is_running t then 1 else 0) =
  count_running ts + (if is_running x then 1 else 0).
Proof.
  unfold count_running. revert i. induction ts as [|y ts IH]; intros i H; [now destruct i |].
  destruct i as [|i]; simpl in *.
  - injection H as ->. destruct (is_running t), (is_running x); simpl; lia.
  - specialize (IH i H). destruct (is_running y); simpl; lia.
Qed.

Lemma count_running_app (ts : list Task) :
  count_running (ts ++ [TPending]) = count_running ts.
Proof. unfold count_running. rewrite filter_app, length_app. simpl. lia. Qed.

Definition sched_inv (c : Config Index) : Prop :=
  count_running (snd c) <= 1 /\
  (is_indexing Index (fst c) = true <-> count_running (snd c) = 1).

Lemma task_step_inv (i : nat) (c c' : Config Index) :
  sched_inv c -> task_step Index i c c' -> sched_inv c'.
Proof.
  intros [H1 H2] Hs. unfold sched_inv in *.
  destruct Hs as [st st' ts r Hi Hc | st st' ts Hi Hc | st ts p idx Hi | st ts r Hi];
    simpl in *.
  - pose proof (count_running_set ts i TPending (TDone r) Hi) as E. simpl in E.
    unfold start_check in Hc. destruct (is_indexing Index st) eqn:Hf; [| discriminate].
    injection Hc as _ <-.
    assert (count_running ts = 1) by (apply H2; reflexivity).
    rewrite Hf. split; [lia | split; intros; [lia | reflexivity]].
  - pose proof (count_running_set ts i TPending TRunning Hi) as E. simpl in E.
    unfold start_check in Hc. destruct (is_indexing Index st) eqn:Hf; [discriminate |].
    injection Hc as <-. simpl.
    assert (count_running ts = 0) by (destruct (count_running ts); [reflexivity |]; 
      assert (false = true) by (apply H2; lia); discriminate).
    split; [lia | split; [intros _; lia | reflexivity]].
  - split; assumption.
  - pose proof (count_running_set ts i TRunning (TDone r) Hi) as E. simpl in E.
    assert (count_running ts = 1).
    { assert (count_running ts >= 1) by lia. lia. }
    split; [lia | simpl; split; [discriminate | lia]].
Qed.

Lemma reachable_inv (c : Config Index) : reachable Index c -> sched_inv c.
Proof.
  induction 1 as [idx | c c' _ IH Hs].
  - unfold sched_inv, count_running. simpl. split; [lia | split; intros H; discriminate H].
  - destruct Hs as [st ts | i c c' Ht].
    + destruct IH as [H1 H2]. unfold sched_inv. simpl in *. rewrite count_running_app.
      split; assumption.
    + exact (task_step_inv i c c' IH Ht).
Qed.

End Sched.

(** What a successful job persists for the text messages [msgs]. *)
Definition to_record (d : string * Dict * string) : LlamaDoc :=
  mkLlamaDoc (fst (fst d)) (snd (fst d)) (Some (snd d)).

Definition message_records (msgs : list Msg) : list LlamaDoc :=
  map to_record (prepare_documents msgs).

Lemma make_llama_docs_triples (docs : list (string * Dict * string)) :
  make_llama_docs (map (fun d => fst (fst d)) docs) (map (fun d => snd (fst d)) docs)
                  (map snd docs) = Ok (map to_record docs).
Proof.
  rewrite make_llama_docs_ok by (rewrite !length_map; lia). f_equal.
  apply nth_error_ext. intros i.
  rewrite llama_docs_of_nth, !nth_error_map.
  destruct (nth_error docs i) as [d|] eqn:E; simpl; [| reflexivity].
  unfold to_record.
  do 2 (erewrite nth_error_nth by (rewrite nth_error_map, E; reflexivity)).
  reflexivity.
Qed.

Definition LogState : Type := BotState (list LlamaDoc).

Lemma store_if_any_log (docs : list (string * Dict * string)) (st : LogState) :
  store_if_any (list LlamaDoc) log_insert docs st =
  (Ok tt, mkBot _ (is_indexing _ st) (indexing_progress _ st) (bot_index _ st ++ map to_record docs)).
Proof.
  destruct docs as [|d docs].
  - destruct st. simpl. now rewrite app_nil_r.
  - simpl (store_if_any _ _ _). unfold store_documents, add_documents.
    rewrite make_llama_docs_triples. cbn [res_bind]. rewrite insert_all_log. reflexivity.
Qed.

Lemma prepare_documents_app (a b : list Msg) :
  prepare_documents (a ++ b) = prepare_documents a ++ prepare_documents b.
Proof. apply flat_map_app. Qed.

Lemma index_batches_log (total : nat) (bs : list (nat * list Msg)) (st : LogState) :
  exists st', index_batches (list LlamaDoc) log_insert total bs st = (Ok tt, st') /\
              is_indexing _ st' = is_indexing _ st /\
              bot_index _ st' = bot_index _ st ++ message_records (concat (map snd bs)).
Proof.
  revert st. induction bs as [|[i batch] bs IH]; intros st.
  - exists st. simpl. now rewrite app_nil_r.
  - simpl (index_batches _ _ _ _). unfold mbind at 1. rewrite store_if_any_log.
    unfold mbind at 1. unfold set_progress at 1. unfold mbind at 1. unfold set_progress at 1.
    edestruct IH as (st' & E & Hf & Hi). rewrite E.
    exists st'. split; [reflexivity |]. rewrite Hf, Hi. simpl. split; [reflexivity |].
    unfold message_records. rewrite prepare_documents_app, map_app, app_assoc. reflexivity.
Qed.

Lemma concat_batches (fuel i : nat) (l : list Msg) :
  List.length l <= fuel -> concat (map snd (batches fuel i l)) = l.
Proof.
  revert i l. induction fuel as [|fuel IH]; intros i l H.
  - destruct l; [reflexivity | simpl in H; lia].
  - destruct l as [|m l']; [reflexivity |].
    set (l := m :: l') in *.
    change (concat (map snd (batches (S fuel) i l)))
      with (firstn 50 l ++ concat (map snd (batches fuel (i + 50) (skipn 50 l)))).
    rewrite IH; [apply firstn_skipn |].
    rewrite length_skipn. subst l. cbn [List.length] in *. lia.
Qed.

Lemma index_server_log (g : Guild) (msgs : list Msg) (st : LogState) :
  collect_server_messages g = Ok msgs ->
  exists st', index_server (list LlamaDoc) log_insert g st = (Ok tt, st') /\
              bot_index _ st' = bot_index _ st ++ message_records (filter_text_messages msgs).
Proof.
  intros Hc. unfold index_server, mbind, lift_res. rewrite Hc.
  unfold set_progress.
  edestruct index_batches_log as (st' & E & _ & Hi). rewrite E.
  exists st'. split; [reflexivity |]. rewrite Hi, concat_batches; [reflexivity | lia].
Qed.

Lemma index_channel_log (ch : Channel) (msgs : list Msg) (st : LogState) :
  ch_collected ch = Ok msgs ->
  exists st', index_channel (list LlamaDoc) log_insert ch st = (Ok tt, st') /\
              bot_index _ st' = bot_index _ st ++ message_records (filter_text_messages msgs).
Proof.
  intros Hc. unfold index_channel, mbind, lift_res. rewrite Hc.
  unfold set_progress at 1. unfold set_progress at 1. rewrite store_if_any_log.
  eexists. split; [reflexivity | reflexivity].
Qed.

Lemma message_records_shape (msgs : list Msg) (d : LlamaDoc) :
  In d (message_records (filter_text_messages msgs)) ->
  exists m gid gname,
    In m msgs /\ msg_guild m = Some (gid, gname) /\ ld_text d = msg_content m /\
    ld_doc_id d = Some (String.append (py_str (PInt gid)) (String.append "_"
                    (String.append (py_str (PInt (fst (msg_channel m))))
                       (String.append "_" (py_str (PInt (msg_id m))))))).
Proof.
  unfold message_records, prepare_documents. intros Hd.
  apply in_map_iff in Hd as (x & <- & Hx).
  apply in_flat_map in Hx as (m & Hm & Hx).
  apply filter_In in Hm as [Hm _].
  destruct (msg_has_attrs m); [| destruct Hx].
  unfold message_document in Hx.
  destruct (msg_guild m) as [[gid gname]|] eqn:Eg; [| destruct Hx].
  destruct (msg_channel m) as [cid cname] eqn:Ec.
  destruct (msg_author m) as [aid aname].
  destruct Hx as [<- | []].
  exists m, gid, gname. simpl. rewrite Ec. repeat split; assumption.
Qed.

End BotFacts.

(* ------------------------------------------------------------------ *)
(** ** The bot's indexing entry point *)

Module BotClaims.
Import Py Storage StorageFacts Bot BotFacts.

(** A guild with one text channel holding a formatted message and a
    message whose [guild] is [None]. *)
Definition m_ok : Msg := mkMsg 3 "**hi**  there" true (Some (1%Z, "G")) (2%Z, "general")
                               (7%Z, "ann") "2024-01-01T00:00:00".

Definition m_dm : Msg := mkMsg 4 "oops" true None (2%Z, "general")
                               (8%Z, "bob") "2024-01-01T00:01:00".

Definition guild_demo : Guild := mkGuild 1 "G" [mkChannel 2 "general" true (Ok [m_ok; m_dm])].

(** The guild as discord.py delivers it: [m_ok] carries its guild. *)
Definition guild_ok : Guild := mkGuild 1 "G" [mkChannel 2 "general" true (Ok [m_ok])].

Definition guild_forbidden : Guild :=
  mkGuild 1 "G" [mkChannel 2 "general" true (Err (mkExc "Forbidden" "403 Forbidden"))].

Definition st_demo : LogState := mkBot _ false [] [].

(** C2: in every configuration reachable by issuing [start_indexing] calls
    and interleaving them on the event loop, at most one job is running;
    and while one is running, a newly scheduled call returns
    [(False, "Indexing already in progress")] in a single step, leaving the
    flag, the progress and the index exactly as they were. *)
Theorem at_most_one_indexing_job (Index : Type) (c : Config Index) :
  reachable Index c ->
  count_running (snd c) <= 1 /\
  (forall (i : nat) (c' : Config Index),
     nth_error (snd c) i = Some (TPending) -> count_running (snd c) = 1 ->
     task_step Index i c c' ->
     c' = (fst c, list_set (snd c) i (TDone already_in_progress))).
Proof.
  intros Hr. destruct (reachable_inv Index c Hr) as [Hle Hiff].
  split; [exact Hle |].
  intros i c' Hp H1 Hs. apply Hiff in H1.
  destruct Hs as [st st' ts r Hn Hc | st st' ts Hn Hc | st ts progress idx Hn | st ts r Hn];
    simpl in *.
  - unfold start_check in Hc. rewrite H1 in Hc. now injection Hc as -> ->.
  - unfold start_check in Hc. rewrite H1 in Hc. discriminate.
  - congruence.
  - congruence.
Qed.

Lemma at_most_one_indexing_job_witness :
  count_running [TRunning; TPending] <= 1 /\
  (forall (i : nat) (c' : Config unit),
     nth_error [TRunning; TPending] i = Some (TPending) ->
     count_running [TRunning; TPending] = 1 ->
     task_step unit i (enter_indexing unit (mkBot unit false [] tt), [TRunning; TPending]) c' ->
     c' = (enter_indexing unit (mkBot unit false [] tt),
           list_set [TRunning; TPending] i (TDone already_in_progress))).
Proof.
  apply (at_most_one_indexing_job unit
           (enter_indexing unit (mkBot unit false [] tt), [TRunning; TPending])).
  apply (reach_step unit (enter_indexing unit (mkBot unit false [] tt), [TRunning]));
    [| exact (ss_call unit _ [TRunning])].
  apply (reach_step unit (mkBot unit false [] tt, [TPending])).
  - apply (reach_step unit (mkBot unit false [] tt, [])).
    + apply (reach_init unit tt).
    + exact (ss_call unit _ []).
  - apply (ss_task unit 0).
    exact (ts_enter unit 0 (mkBot unit false [] tt) _ [TPending] eq_refl eq_refl).
Defined.

(** C3: once [start_indexing] has taken the flag, on every exit path the
    [is_indexing] flag is false and [indexing_progress] is empty when it
    returns; an exception that escapes the job (collection of a channel or
    of a server, storage) yields [(False, "Indexing failed: <cause>")]. For
    the guilds discord.py delivers, preparing a message's document never
    raises, so no exception is swallowed by the per-message [try]. *)
Theorem start_indexing_releases_and_reports (Index : Type)
    (index_insert : Index -> LlamaDoc -> Res Index) (guilds : list Guild) (gid : Z)
    (cid : option Z) (st : BotState Index) :
  is_indexing Index st = false ->
  forallb receivable_guild guilds = true ->
  is_indexing Index (snd (start_indexing Index index_insert guilds gid cid st)) = false /\
  indexing_progress Index (snd (start_indexing Index index_insert guilds gid cid st)) = [] /\
  (forall e st2,
     indexing_job Index index_insert guilds gid cid (enter_indexing Index st) = (Err e, st2) ->
     fst (start_indexing Index index_insert guilds gid cid st) =
       (false, String.append "Indexing failed: " (exc_msg e))) /\
  (forall g e,
     get_guild guilds gid = Some g -> cid = None -> collect_server_messages g = Err e ->
     fst (start_indexing Index index_insert guilds gid cid st) =
       (false, String.append "Indexing failed: " (exc_msg e))) /\
  (forall g c ch e,
     get_guild guilds gid = Some g -> cid = Some c -> c <> 0%Z ->
     get_channel g c = Some ch -> ch_collected ch = Err e ->
     fst (start_indexing Index index_insert guilds gid cid st) =
       (false, String.append "Indexing failed: " (exc_msg e))) /\
  (forall g ch ms m, In g guilds -> In ch (g_channels g) -> ch_collected ch = Ok ms ->
     In m ms -> exists d, message_document m = Ok d).
Proof.
  intros Hf Hrecv.
  assert (Hjob : forall e st2,
    indexing_job Index index_insert guilds gid cid (enter_indexing Index st) = (Err e, st2) ->
    fst (start_indexing Index index_insert guilds gid cid st) =
      (false, String.append "Indexing failed: " (exc_msg e))).
  { intros e st2 E. unfold start_indexing, start_check. rewrite Hf, E. reflexivity. }
  assert (Hsnd : snd (start_indexing Index index_insert guilds gid cid st) =
                 leave_indexing Index (snd (indexing_job Index index_insert guilds gid cid
                                              (enter_indexing Index st)))).
  { unfold start_indexing, start_check. rewrite Hf.
    destruct (indexing_job Index index_insert guilds gid cid (enter_indexing Index st)).
    reflexivity. }
  rewrite Hsnd.
  split; [reflexivity | split; [reflexivity | split; [exact Hjob | split; [| split]]]].
  - intros g e Hg -> Hc. apply (Hjob e (enter_indexing Index st)).
    unfold indexing_job. rewrite Hg. unfold index_server, mbind, lift_res. now rewrite Hc.
  - intros g c ch e Hg -> Hc0 Hch Hc. apply (Hjob e (enter_indexing Index st)).
    unfold indexing_job. rewrite Hg, (proj2 (Z.eqb_neq c 0) Hc0), Hch.
    unfold index_channel, mbind, lift_res. now rewrite Hc.
  - intros g ch ms m Hg Hch Hms Hm.
    rewrite forallb_forall in Hrecv. specialize (Hrecv g Hg).
    unfold receivable_guild in Hrecv. rewrite forallb_forall in Hrecv.
    specialize (Hrecv ch Hch). rewrite Hms, forallb_forall in Hrecv.
    specialize (Hrecv m Hm). unfold message_document.
    destruct (msg_guild m) as [[gid' gname]|]; [| discriminate Hrecv].
    destruct (msg_channel m), (msg_author m). eexists. reflexivity.
Qed.

Lemma start_indexing_releases_and_reports_witness :
  is_indexing _ (snd (start_indexing _ log_insert [guild_forbidden] 1 None st_demo)) = false /\
  indexing_progress _ (snd (start_indexing _ log_insert [guild_forbidden] 1 None st_demo)) = [] /\
  fst (start_indexing _ log_insert [guild_forbidden] 1 None st_demo) =
    (false, "Indexing failed: 403 Forbidden") /\
  forallb receivable_guild [guild_ok] = true /\
  (exists d, message_document m_ok = Ok d).
Proof.
  destruct (start_indexing_releases_and_reports (list LlamaDoc) log_insert [guild_forbidden] 1 None
              st_demo eq_refl eq_refl) as (H1 & H2 & _ & H4 & _).
  destruct (start_indexing_releases_and_reports (list LlamaDoc) log_insert [guild_ok] 1 None
              st_demo eq_refl eq_refl) as (_ & _ & _ & _ & _ & H6).
  split; [exact H1 | split; [exact H2 | split; [| split; [reflexivity |]]]].
  - exact (H4 guild_forbidden (mkExc "Forbidden" "403 Forbidden") eq_refl eq_refl eq_refl).
  - exact (H6 guild_ok (mkChannel 2 "general" true (Ok [m_ok])) [m_ok] m_ok
             (or_introl eq_refl) (or_introl eq_refl) eq_refl (or_introl eq_refl)).
Defined.

(** C5 (counterexample): the record persisted for [m_ok] keeps the raw
    content, whose whitespace is not collapsed, and its id is
    [{guild_id}_{channel_id}_{message_id}], not [3_chunk_<i>]. *)
Lemma persisted_record_not_cleaned_chunk :
  map ld_text (bot_index _ (snd (start_indexing _ log_insert [guild_demo] 1 None st_demo))) =
    ["**hi**  there"] /\
  map ld_doc_id (bot_index _ (snd (start_indexing _ log_insert [guild_demo] 1 None st_demo))) =
    [Some "1_2_3"] /\
  PyStr.normalize_ws "**hi**  there" <> "**hi**  there" /\
  String.prefix "3_chunk_" "1_2_3" = false.
Proof. vm_compute. repeat split; [discriminate]. Qed.

(** C5 (amended): a job started by [start_indexing] that succeeds on a
    server or on a channel appends to the store exactly the records of
    [message_records] for the collected text messages, in order: each is a
    message's raw [content] (no cleaning, no chunking), with id
    [{guild_id}_{channel_id}_{message_id}]. *)
Theorem indexing_persists_raw_messages (guilds : list Guild) (gid : Z) (cid : option Z)
    (g : Guild) (msgs : list Msg) (st : LogState) :
  is_indexing _ st = false ->
  get_guild guilds gid = Some g ->
  (cid = None /\ collect_server_messages g = Ok msgs \/
   exists c ch, cid = Some c /\ c <> 0%Z /\ get_channel g c = Some ch /\ ch_collected ch = Ok msgs) ->
  start_indexing _ log_insert guilds gid cid st =
    (completed, mkBot _ false [] (bot_index _ st ++ message_records (filter_text_messages msgs))) /\
  (forall d, In d (message_records (filter_text_messages msgs)) ->
   exists m gi gn,
     In m msgs /\ msg_guild m = Some (gi, gn) /\ ld_text d = msg_content m /\
     ld_doc_id d = Some (String.append (py_str (PInt gi)) (String.append "_"
                     (String.append (py_str (PInt (fst (msg_channel m))))
                        (String.append "_" (py_str (PInt (msg_id m))))))) ).
Proof.
  intros Hf Hg Hcase. split; [| apply message_records_shape].
  unfold start_indexing, start_check. rewrite Hf. unfold indexing_job. rewrite Hg.
  destruct Hcase as [[-> Hc] | (c & ch & -> & Hc0 & Hch & Hc)].
  - destruct (index_server_log g msgs (enter_indexing _ st) Hc) as (st' & E & Hi).
    unfold mbind at 1. rewrite E. unfold mret. cbv beta iota.
    unfold leave_indexing. rewrite Hi. reflexivity.
  - rewrite (proj2 (Z.eqb_neq c 0) Hc0), Hch.
    destruct (index_channel_log ch msgs (enter_indexing _ st) Hc) as (st' & E & Hi).
    unfold mbind at 1. rewrite E. unfold mret. cbv beta iota.
    unfold leave_indexing. rewrite Hi. reflexivity.
Qed.

Lemma indexing_persists_raw_messages_witness :
  start_indexing _ log_insert [guild_demo] 1 None st_demo =
    (completed, mkBot _ false [] (message_records (filter_text_messages [m_ok; m_dm]))).
Proof.
  exact (proj1 (indexing_persists_raw_messages [guild_demo] 1 None guild_demo [m_ok; m_dm] st_demo
                  eq_refl eq_refl (or_introl (conj eq_refl eq_refl)))).
Defined.

End BotClaims.

(* ------------------------------------------------------------------ *)
(** ** [clean_text] *)

Module CleanFacts.
Import PyStr PyStrFacts Clean.

Fixpoint all_chars (P : ascii -> bool) (s : string) : bool :=
  match s with
  | EmptyString => true
  | String c s' => P c && all_chars P s'
  end.

Lemma all_chars_app (P : ascii -> bool) (a b : string) :
  all_chars P (String.append a b) = all_chars P a && all_chars P b.
Proof. induction a as [|c a IH]; simpl; [reflexivity | now rewrite IH, andb_assoc]. Qed.

Lemma all_chars_sdrop (P : ascii -> bool) (n : nat) (s : string) :
  all_chars P s = true -> all_chars P (sdrop n s) = true.
Proof.
  revert s. induction n as [|n IH]; intros s H; [exact H |].
  destruct s as [|c s]; [reflexivity |]. simpl in H. apply andb_prop in H as [_ H].
  exact (IH s H).
Qed.

Lemma length_sdrop (n : nat) (s : string) : String.length (sdrop n s) = String.length s - n.
Proof.
  revert s. induction n as [|n IH]; intros s; [simpl; lia |].
  destruct s as [|c s]; [reflexivity |]. simpl. apply IH.
Qed.

Lemma prefix_length (p s : string) : String.prefix p s = true -> String.length p <= String.length s.
Proof.
  revert s. induction p as [|c p IH]; intros s H; [simpl; lia |].
  destruct s as [|d s]; [discriminate |]. simpl in H.
  destruct (ascii_dec c d); [| discriminate]. simpl. apply IH in H. lia.
Qed.

Lemma prefix_all_chars (P : ascii -> bool) (p s : string) :
  String.prefix p s = true -> all_chars P s = true -> all_chars P p = true.
Proof.
  revert s. induction p as [|c p IH]; intros s H Hs; [reflexivity |].
  destruct s as [|d s]; [discriminate |]. simpl in H.
  destruct (ascii_dec c d) as [<- |]; [| discriminate].
  simpl in Hs |- *. apply andb_prop in Hs as [Hc Hs]. rewrite Hc. exact (IH s H Hs).
Qed.

Lemma prefix_head (c : ascii) (p s : string) :
  String.prefix (String c p) s = true -> exists t, s = String c t.
Proof.
  destruct s as [|d t]; [discriminate |]. simpl.
  destruct (ascii_dec c d) as [<- |]; [eauto | discriminate].
Qed.

Lemma find_close_eq (d s : string) :
  find_close d s =
  if String.prefix d s then Some (EmptyString, sdrop (String.length d) s)
  else match s with
       | EmptyString => None
       | String c s' =>
           if Ascii.eqb c newline then None
           else match find_close d s' with
                | Some (g, rest) => Some (String c g, rest)
                | None => None
                end
       end.
Proof. destruct s; reflexivity. Qed.

Lemma find_close_spec (P : ascii -> bool) (d s g rest : string) :
  find_close d s = Some (g, rest) ->
  String.length g + String.length rest <= String.length s /\
  (all_chars P s = true -> all_chars P g = true /\ all_chars P rest = true).
Proof.
  revert g rest. induction s as [|c s IH]; intros g rest H; rewrite find_close_eq in H.
  - destruct (String.prefix d ""); [| discriminate]. injection H as <- <-.
    rewrite length_sdrop. split; [cbn [String.length]; lia |].
    intros Hs. split; [reflexivity | now apply all_chars_sdrop].
  - destruct (String.prefix d (String c s)) eqn:Hp.
    + injection H as <- <-. rewrite length_sdrop. split; [cbn [String.length]; lia |].
      intros Hs. split; [reflexivity | now apply all_chars_sdrop].
    + destruct (Ascii.eqb c newline); [discriminate |].
      destruct (find_close d s) as [[g' r']|] eqn:E; [| discriminate].
      injection H as <- <-. destruct (IH g' r' eq_refl) as [Hl Hc].
      split; [simpl; lia |]. simpl. intros Hs. apply andb_prop in Hs as [H1 H2].
      rewrite H1. exact (Hc H2).
Qed.

Lemma sub_delim_fuel_cons (fuel : nat) (d : string) (c : ascii) (s' : string) :
  sub_delim_fuel (S fuel) d (String c s') =
  match (if String.prefix d (String c s')
         then find_close d (sdrop (String.length d) (String c s')) else None) with
  | Some (g, rest) => String.append g (sub_delim_fuel fuel d rest)
  | None => String c (sub_delim_fuel fuel d s')
  end.
Proof. reflexivity. Qed.

Lemma sub_url_fuel_cons (fuel : nat) (c : ascii) (s' : string) :
  sub_url_fuel (S fuel) (String c s') =
  match url_match (String c s') with
  | Some n => sub_url_fuel fuel (sdrop n (String c s'))
  | None => String c (sub_url_fuel fuel s')
  end.
Proof. reflexivity. Qed.

Lemma sub_delim_fuel_spec (P : ascii -> bool) (fuel : nat) (d s : string) :
  String.length (sub_delim_fuel fuel d s) <= String.length s /\
  (all_chars P s = true -> all_chars P (sub_delim_fuel fuel d s) = true).
Proof.
  revert s. induction fuel as [|fuel IH]; intros s; [simpl; auto |].
  destruct s as [|c s']; [simpl; auto |]. rewrite sub_delim_fuel_cons.
  destruct (if String.prefix d (String c s')
            then find_close d (sdrop (String.length d) (String c s')) else None)
    as [[g rest]|] eqn:E.
  - destruct (String.prefix d (String c s')) eqn:Hp; [| discriminate].
    destruct (find_close_spec P _ _ _ _ E) as [Hl Hc].
    destruct (IH rest) as [Hl' Hc'].
    rewrite length_sdrop in Hl. split.
    + rewrite slength_app. lia.
    + intros Hs. destruct (Hc (all_chars_sdrop P _ _ Hs)) as [Hg Hr].
      rewrite all_chars_app, Hg. exact (Hc' Hr).
  - destruct (IH s') as [Hl Hc]. split; [simpl; lia |].
    simpl. intros Hs. apply andb_prop in Hs as [H1 H2]. rewrite H1. exact (Hc H2).
Qed.

Lemma sub_url_fuel_spec (P : ascii -> bool) (fuel : nat) (s : string) :
  String.length (sub_url_fuel fuel s) <= String.length s /\
  (all_chars P s = true -> all_chars P (sub_url_fuel fuel s) = true).
Proof.
  revert s. induction fuel as [|fuel IH]; intros s; [simpl; auto |].
  destruct s as [|c s']; [simpl; auto |]. rewrite sub_url_fuel_cons.
  destruct (url_match (String c s')) as [n|].
  - destruct (IH (sdrop n (String c s'))) as [Hl Hc]. rewrite length_sdrop in Hl.
    split; [lia |]. intros Hs. exact (Hc (all_chars_sdrop P _ _ Hs)).
  - destruct (IH s') as [Hl Hc]. split; [simpl; lia |].
    simpl. intros Hs. apply andb_prop in Hs as [H1 H2]. rewrite H1. exact (Hc H2).
Qed.

Lemma lstrip_spec (P : ascii -> bool) (s : string) :
  String.length (lstrip s) <= String.length s /\
  (all_chars P s = true -> all_chars P (lstrip s) = true).
Proof.
  induction s as [|c s [Hl Hc]]; [simpl; auto |]. simpl.
  destruct (is_space c); [split; [lia |] | split; [simpl; lia | auto]].
  intros Hs. apply andb_prop in Hs as [_ Hs]. exact (Hc Hs).
Qed.

Lemma rstrip_spec (P : ascii -> bool) (s : string) :
  String.length (rstrip s) <= String.length s /\
  (all_chars P s = true -> all_chars P (rstrip s) = true).
Proof.
  induction s as [|c s [Hl Hc]]; [simpl; auto |]. simpl.
  destruct (is_space c && String.eqb (rstrip s) ""); [simpl; split; [lia | auto] |].
  split; [simpl; lia |]. simpl. intros Hs. apply andb_prop in Hs as [H1 H2].
  rewrite H1. exact (Hc H2).
Qed.

Lemma collapse_ws_aux_length (b : bool) (s : string) :
  String.length (collapse_ws_aux b s) <= String.length s.
Proof.
  revert b. induction s as [|c s IH]; intros b; [simpl; lia |]. simpl.
  destruct (is_space c); [destruct b; simpl; specialize (IH true); lia |].
  simpl. specialize (IH false). lia.
Qed.

(** A character of the output of [collapse_ws] is a space or a non-whitespace
    character of the input. *)
Lemma collapse_ws_aux_chars (P : ascii -> bool) (b : bool) (s : string) :
  all_chars P s = true -> P " "%char = true ->
  all_chars (fun c => P c && (negb (is_space c) || Ascii.eqb c " ")) (collapse_ws_aux b s) = true.
Proof.
  intros Hs Hsp. revert b. induction s as [|c s IH]; intros b; [reflexivity |].
  simpl in Hs. apply andb_prop in Hs as [Hc Hs]. simpl.
  destruct (is_space c) eqn:Ec.
  - destruct b; [exact (IH Hs true) |]. simpl. rewrite Hsp. exact (IH Hs true).
  - simpl. rewrite Hc, Ec. exact (IH Hs false).
Qed.

Lemma lstrip_idem (s : string) : lstrip (lstrip s) = lstrip s.
Proof.
  induction s as [|c s IH]; [reflexivity |]. simpl.
  destruct (is_space c) eqn:E; [exact IH | simpl; now rewrite E].
Qed.

Lemma rstrip_idem (s : string) : rstrip (rstrip s) = rstrip s.
Proof.
  induction s as [|c s IH]; [reflexivity |]. simpl.
  destruct (is_space c && String.eqb (rstrip s) "") eqn:E; [reflexivity |].
  simpl. rewrite IH, E. reflexivity.
Qed.

Lemma rstrip_lstrip (s : string) : rstrip (lstrip s) = lstrip (rstrip s).
Proof.
  induction s as [|c s IH]; [reflexivity |]. simpl.
  destruct (is_space c) eqn:Ec; simpl.
  - rewrite IH. destruct (String.eqb (rstrip s) "") eqn:E.
    + apply String.eqb_eq in E. rewrite E. reflexivity.
    + simpl. now rewrite Ec.
  - simpl. now rewrite Ec.
Qed.

Lemma strip_idem (s : string) : strip (strip s) = strip s.
Proof.
  unfold strip. rewrite rstrip_lstrip, rstrip_idem, lstrip_idem. reflexivity.
Qed.

(** [sub_delim] with a delimiter whose first character does not occur. *)
Lemma sub_delim_fuel_absent (fuel : nat) (c0 : ascii) (d s : string) :
  all_chars (fun c => negb (Ascii.eqb c c0)) s = true ->
  sub_delim_fuel fuel (String c0 d) s = s.
Proof.
  revert s. induction fuel as [|fuel IH]; intros s Hs; [reflexivity |].
  destruct s as [|c s']; [reflexivity |]. rewrite sub_delim_fuel_cons.
  destruct (String.prefix (String c0 d) (String c s')) eqn:Hp.
  - destruct (prefix_head _ _ _ Hp) as [t Ht]. injection Ht as <- _.
    simpl in Hs. rewrite Ascii.eqb_refl in Hs. discriminate.
  - simpl in Hs. apply andb_prop in Hs as [_ Hs]. now rewrite IH.
Qed.

Lemma url_match_colon (s : string) (n : nat) :
  url_match s = Some n -> all_chars (fun c => negb (Ascii.eqb c ":")) s = false.
Proof.
  unfold url_match. intros H.
  destruct (all_chars (fun c => negb (Ascii.eqb c ":")) s) eqn:Hs; [| reflexivity].
  destruct (String.prefix "https://" s) eqn:H1.
  - pose proof (prefix_all_chars _ _ _ H1 Hs). discriminate.
  - destruct (String.prefix "http://" s) eqn:H2.
    + pose proof (prefix_all_chars _ _ _ H2 Hs). discriminate.
    + discriminate.
Qed.

Lemma sub_url_fuel_absent (fuel : nat) (s : string) :
  all_chars (fun c => negb (Ascii.eqb c ":")) s = true -> sub_url_fuel fuel s = s.
Proof.
  revert s. induction fuel as [|fuel IH]; intros s Hs; [reflexivity |].
  destruct s as [|c s']; [reflexivity |]. rewrite sub_url_fuel_cons.
  destruct (url_match (String c s')) as [n|] eqn:E.
  - rewrite (url_match_colon _ _ E) in Hs. discriminate.
  - simpl in Hs. apply andb_prop in Hs as [_ Hs]. now rewrite IH.
Qed.

Lemma split_nonspace_ne (d : ascii) (t : string) :
  is_space d = false -> split (String d t) <> [].
Proof.
  intros Hd. simpl. rewrite Hd. destruct t as [|e t]; [discriminate |].
  destruct (is_space e); [discriminate |]. destruct (split (String e t)); discriminate.
Qed.

Lemma collapse_ws_false_true (c : ascii) (s : string) :
  collapse_ws_aux false (String c s) =
  if is_space c then String " " (collapse_ws_aux true (String c s))
  else collapse_ws_aux true (String c s).
Proof. simpl. destruct (is_space c); reflexivity. Qed.

(** [collapse_ws] after leading whitespace: the words joined by single spaces,
    with one trailing space when the input ends in whitespace after a word. *)
Lemma collapse_ws_true_words (s : string) :
  exists tail,
    (tail = "" \/ (tail = " " /\ split s <> [])) /\
    collapse_ws_aux true s = String.append (join_space (split s)) tail.
Proof.
  induction s as [|c s' IH]; [exists ""; split; [now left | reflexivity] |].
  destruct (is_space c) eqn:Ec.
  - simpl. rewrite Ec. exact IH.
  - destruct s' as [|d t].
    + exists "". split; [now left |]. simpl. now rewrite Ec.
    + destruct IH as (tail & Htail & E).
      destruct (is_space d) eqn:Ed.
      * change (collapse_ws_aux true (String c (String d t)))
          with (if is_space c then collapse_ws_aux true (String d t)
                else String c (collapse_ws_aux false (String d t))).
        rewrite Ec, collapse_ws_false_true, Ed, E.
        change (split (String c (String d t)))
          with (if is_space c then split (String d t)
                else if is_space d then String c EmptyString :: split (String d t)
                else match split (String d t) with
                     | [] => [String c EmptyString]
                     | w :: ws => String c w :: ws
                     end).
        rewrite Ec, Ed.
        destruct (split (String d t)) as [|w ws] eqn:Es.
        -- destruct Htail as [-> | [_ Hne]]; [| congruence].
           exists " ". split; [right; split; [reflexivity | discriminate] | reflexivity].
        -- exists tail. split.
           ++ destruct Htail as [-> | [-> _]]; [now left | right; split; [reflexivity | discriminate]].
           ++ reflexivity.
      * rewrite (split_cons_word c d t Ec Ed).
        change (collapse_ws_aux true (String c (String d t)))
          with (if is_space c then collapse_ws_aux true (String d t)
                else String c (collapse_ws_aux false (String d t))).
        rewrite Ec, collapse_ws_false_true, Ed, E.
        destruct (split (String d t)) as [|w ws] eqn:Es;
          [exfalso; exact (split_nonspace_ne d t Ed Es) |].
        exists tail. split.
        -- destruct Htail as [-> | [-> _]]; [now left | right; split; [reflexivity | discriminate]].
        -- destruct ws; reflexivity.
Qed.

Lemma lstrip_join_space (ws : list string) :
  forallb word_ok ws = true -> lstrip (join_space ws) = join_space ws.
Proof.
  intros Hok. destruct ws as [|w ws]; [reflexivity |].
  destruct (join_space_head (w :: ws) ltac:(discriminate) Hok) as (c & t & E & Hc).
  rewrite E. simpl. now rewrite Hc.
Qed.

Lemma strip_collapse_ws (s : string) : strip (collapse_ws s) = normalize_ws s.
Proof.
  unfold collapse_ws, normalize_ws.
  assert (Hw : strip (collapse_ws_aux true s) = join_space (split s)).
  { destruct (collapse_ws_true_words s) as (tail & [-> | [-> Hne]] & E); rewrite E.
    - unfold strip. rewrite sapp_nil_r, rstrip_join by apply split_words_ok.
      apply lstrip_join_space, split_words_ok.
    - apply strip_join_space; [exact Hne | apply split_words_ok]. }
  destruct s as [|c s']; [reflexivity |].
  rewrite collapse_ws_false_true. destruct (is_space c); [| exact Hw].
  rewrite <- Hw. unfold strip.
  generalize (collapse_ws_aux true (String c s')) as X. intros X. simpl.
  destruct (String.eqb (rstrip X) "") eqn:E; simpl; [| reflexivity].
  apply String.eqb_eq in E. now rewrite E.
Qed.

Definition no_markup (c : ascii) : bool :=
  negb (Ascii.eqb c "*" || Ascii.eqb c "`" || Ascii.eqb c "~" || Ascii.eqb c "_"
        || Ascii.eqb c ":").

Lemma all_chars_impl (P Q : ascii -> bool) (s : string) :
  (forall c, P c = true -> Q c = true) -> all_chars P s = true -> all_chars Q s = true.
Proof.
  intros H. induction s as [|c s IH]; [reflexivity |]. simpl.
  intros Hs. apply andb_prop in Hs as [H1 H2]. rewrite (H c H1). exact (IH H2).
Qed.

End CleanFacts.

(* ------------------------------------------------------------------ *)
(** ** Lemmas on [clean_text] *)

Module CleanLemmas.
Import PyStr PyStrFacts Clean CleanFacts.

Lemma all_chars_true (s : string) : all_chars (fun _ => true) s = true.
Proof. induction s as [|c s IH]; [reflexivity | exact IH]. Qed.

(** [clean_text] only removes characters: it is no longer than its input,
    and its characters are characters of the input or spaces, with no other
    whitespace character. *)
Lemma clean_text_spec (P : ascii -> bool) (t : string) :
  P " "%char = true -> all_chars P t = true ->
  String.length (clean_text t) <= String.length t /\
  all_chars (fun c => P c && (negb (is_space c) || Ascii.eqb c " ")) (clean_text t) = true.
Proof.
  intros Hsp Ht. unfold clean_text.
  destruct (String.eqb t "") eqn:E; [simpl; split; [lia | reflexivity] |].
  cbv zeta.
  set (Q := fun c => P c && (negb (is_space c) || Ascii.eqb c " ")).
  assert (Kd : forall s d, String.length s <= String.length t -> all_chars Q s = true ->
                 String.length (sub_delim d s) <= String.length t /\
                 all_chars Q (sub_delim d s) = true).
  { intros s d Hl Hc. destruct (sub_delim_fuel_spec Q (S (String.length s)) d s) as [A B].
    unfold sub_delim. split; [lia | exact (B Hc)]. }
  assert (Ku : forall s, String.length s <= String.length t -> all_chars Q s = true ->
                 String.length (sub_url s) <= String.length t /\ all_chars Q (sub_url s) = true).
  { intros s Hl Hc. destruct (sub_url_fuel_spec Q (S (String.length s)) s) as [A B].
    unfold sub_url. split; [lia | exact (B Hc)]. }
  assert (Ks : forall s, String.length s <= String.length t -> all_chars Q s = true ->
                 String.length (strip s) <= String.length t /\ all_chars Q (strip s) = true).
  { intros s Hl Hc. unfold strip.
    destruct (rstrip_spec Q s) as [A B]. destruct (lstrip_spec Q (rstrip s)) as [A' B'].
    split; [lia | exact (B' (B Hc))]. }
  pose proof (collapse_ws_aux_length false t) as L0.
  pose proof (collapse_ws_aux_chars P false t Ht Hsp) as C0.
  unfold collapse_ws.
  destruct (Kd _ "**" L0 C0) as [L1 C1]. destruct (Kd _ "*" L1 C1) as [L2 C2].
  destruct (Kd _ "`" L2 C2) as [L3 C3]. destruct (Kd _ "~~" L3 C3) as [L4 C4].
  destruct (Kd _ "__" L4 C4) as [L5 C5]. destruct (Ku _ L5 C5) as [L6 C6].
  exact (Ks _ L6 C6).
Qed.

Lemma clean_text_strip (t : string) : strip (clean_text t) = clean_text t.
Proof.
  unfold clean_text. destruct (String.eqb t ""); [reflexivity |]. apply strip_idem.
Qed.

Lemma sub_delim_absent (c0 : ascii) (d s : string) :
  all_chars (fun c => negb (Ascii.eqb c c0)) s = true -> sub_delim (String c0 d) s = s.
Proof. apply sub_delim_fuel_absent. Qed.

Lemma sub_url_absent (s : string) :
  all_chars (fun c => negb (Ascii.eqb c ":")) s = true -> sub_url s = s.
Proof. apply sub_url_fuel_absent. Qed.

End CleanLemmas.

(* ------------------------------------------------------------------ *)
(** ** Properties of [clean_text] *)

Module CleanProps.
Import PyStr PyStrFacts Clean CleanFacts CleanLemmas.

(** X1: the output of [clean_text] has no whitespace character other than
    the plain space, no leading or trailing whitespace, and is never longer
    than its input. *)
Theorem clean_text_whitespace (t : string) :
  all_chars (fun c => negb (is_space c) || Ascii.eqb c " ") (clean_text t) = true /\
  strip (clean_text t) = clean_text t /\
  String.length (clean_text t) <= String.length t.
Proof.
  destruct (clean_text_spec (fun _ => true) t eq_refl (all_chars_true t)) as [L C].
  split; [exact C | split; [apply clean_text_strip | exact L]].
Qed.

(** X2: on a text without the characters [*], [`], [~], [_] and [:],
    no markup or URL pattern applies and [clean_text] is the whitespace
    normalisation [" ".join(text.split())]. *)
Theorem clean_text_plain (t : string) :
  all_chars no_markup t = true -> clean_text t = normalize_ws t.
Proof.
  intros Ht. unfold clean_text.
  destruct (String.eqb t "") eqn:E; [apply String.eqb_eq in E; now subst |].
  cbv zeta.
  assert (Hc : all_chars no_markup (collapse_ws t) = true).
  { apply (all_chars_impl (fun c => no_markup c && (negb (is_space c) || Ascii.eqb c " "))).
    - intros c Hc. now apply andb_prop in Hc as [Hc _].
    - exact (collapse_ws_aux_chars no_markup false t Ht eq_refl). }
  assert (Hx : forall x, In x ["*"; "`"; "~"; "_"; ":"]%char ->
                 all_chars (fun c => negb (Ascii.eqb c x)) (collapse_ws t) = true).
  { intros x Hx. apply (all_chars_impl no_markup); [| exact Hc].
    intros c H. unfold no_markup in H.
    destruct Hx as [<- | [<- | [<- | [<- | [<- | []]]]]];
      destruct (Ascii.eqb c "*"), (Ascii.eqb c "`"), (Ascii.eqb c "~"),
               (Ascii.eqb c "_"), (Ascii.eqb c ":"); simpl in *; congruence. }
  rewrite (sub_delim_absent "*" "*" (collapse_ws t)) by (apply Hx; simpl; tauto).
  rewrite (sub_delim_absent "*" "" (collapse_ws t)) by (apply Hx; simpl; tauto).
  rewrite (sub_delim_absent "`" "" (collapse_ws t)) by (apply Hx; simpl; tauto).
  rewrite (sub_delim_absent "~" "~" (collapse_ws t)) by (apply Hx; simpl; tauto).
  rewrite (sub_delim_absent "_" "_" (collapse_ws t)) by (apply Hx; simpl; tauto).
  rewrite (sub_url_absent (collapse_ws t)) by (apply Hx; simpl; tauto).
  apply strip_collapse_ws.
Qed.

Lemma clean_text_plain_witness :
  all_chars no_markup "  hello  world " = true /\ clean_text "  hello  world " = "hello world".
Proof.
  split; [reflexivity |].
  rewrite (clean_text_plain "  hello  world " eq_refl). reflexivity.
Defined.

End CleanProps.

(* ------------------------------------------------------------------ *)
(** ** Facts on [TextProcessor] *)

Module ProcessorFacts.
Import PyStr PyStrFacts Py Chunk ChunkFacts Clean CleanFacts CleanLemmas Bot Processor.

Lemma dict_get_set_eq (d : Dict) (k : string) (v : PyVal) :
  dict_get (dict_set d k v) k = Some v.
Proof.
  induction d as [|[k' v'] d IH]; simpl; [now rewrite String.eqb_refl |].
  destruct (String.eqb k k') eqn:E; simpl; [now rewrite String.eqb_refl | now rewrite E].
Qed.

Lemma dict_get_set_neq (d : Dict) (k k' : string) (v : PyVal) :
  k' <> k -> dict_get (dict_set d k v) k' = dict_get d k'.
Proof.
  intros Hne. apply String.eqb_neq in Hne as Hne'.
  induction d as [|[k0 v0] d IH]; simpl; [now rewrite Hne' |].
  destruct (String.eqb k k0) eqn:E; simpl.
  - apply String.eqb_eq in E. subst k0. now rewrite Hne'.
  - now rewrite IH.
Qed.

Lemma flat_map_singleton {A B : Type} (F : A -> list B) (g : A -> B) (l : list A) :
  (forall x, In x l -> F x = [g x]) -> flat_map F l = map g l.
Proof.
  induction l as [|x l IH]; intros H; [reflexivity |]. simpl.
  rewrite (H x (or_introl eq_refl)), IH; [reflexivity |]. intros y Hy. apply H. now right.
Qed.

Lemma map_snd_combine_seq {A : Type} (k : nat) (l : list A) :
  map snd (combine (seq k (List.length l)) l) = l.
Proof. revert k. induction l as [|x l IH]; intros k; simpl; [reflexivity | now rewrite IH]. Qed.

Lemma map_fst_combine_seq {A : Type} (k : nat) (l : list A) :
  map fst (combine (seq k (List.length l)) l) = seq k (List.length l).
Proof. revert k. induction l as [|x l IH]; intros k; simpl; [reflexivity | now rewrite IH]. Qed.

(** A chunk of a stripped non-empty text is stripped and non-empty. *)
Lemma chunks_nonblank (T : string) (C : nat) :
  T <> "" -> strip T = T -> forall ch, In ch (chunk_text T C) -> strip ch = ch /\ ch <> "".
Proof.
  intros Hne Hs ch Hin.
  destruct (chunk_text_shape T C) as [[_ E] | [_ (gs & E & Hok & _ & _)]];
    rewrite E in Hin.
  - destruct Hin as [<- | []]. now split.
  - apply in_map_iff in Hin as (g & <- & Hg). rewrite Forall_forall in Hok.
    destruct (Hok g Hg) as [Hgne Hw]. split.
    + unfold strip. rewrite rstrip_join by exact Hw. now apply lstrip_join_space.
    + destruct (join_space_head g Hgne Hw) as (c & t & -> & _). discriminate.
Qed.

(** The documents of a message whose cleaned text is not empty: one per
    chunk, none dropped by the [chunk.strip()] test. *)
Lemma process_message_eq (C : nat) (m : Msg) :
  clean_text (msg_content m) <> "" ->
  process_message C m =
  map (fun '(i, chunk) =>
         mkProcDoc (chunk_doc_id m i) chunk
           (dict_set (dict_set (format_message_metadata m) "chunk_index" (PInt (Z.of_nat i)))
              "total_chunks"
              (PInt (Z.of_nat (List.length (chunk_text (clean_text (msg_content m)) C))))))
      (combine (seq 0 (List.length (chunk_text (clean_text (msg_content m)) C)))
               (chunk_text (clean_text (msg_content m)) C)).
Proof.
  intros Hne. unfold process_message.
  destruct (String.eqb (clean_text (msg_content m)) "") eqn:E;
    [apply String.eqb_eq in E; contradiction |].
  apply flat_map_singleton. intros [i ch] Hin. apply in_combine_r in Hin.
  destruct (chunks_nonblank _ C Hne (clean_text_strip _) ch Hin) as [Hs Hch].
  rewrite Hs. apply String.eqb_neq in Hch. now rewrite Hch.
Qed.

Lemma process_message_empty (C : nat) (m : Msg) :
  clean_text (msg_content m) = "" -> process_message C m = [].
Proof. intros E. unfold process_message. now rewrite E. Qed.

Lemma process_message_texts (C : nat) (m : Msg) :
  map pd_text (process_message C m) =
  if String.eqb (clean_text (msg_content m)) "" then []
  else chunk_text (clean_text (msg_content m)) C.
Proof.
  destruct (String.eqb (clean_text (msg_content m)) "") eqn:E.
  - apply String.eqb_eq in E. now rewrite process_message_empty.
  - apply String.eqb_neq in E. rewrite process_message_eq by exact E.
    rewrite map_map. etransitivity; [| apply (map_snd_combine_seq 0)].
    apply map_ext. now intros [i ch].
Qed.

Lemma process_message_ids (C : nat) (m : Msg) :
  map pd_id (process_message C m) =
  map (chunk_doc_id m) (seq 0 (List.length (process_message C m))).
Proof.
  destruct (String.eqb (clean_text (msg_content m)) "") eqn:E.
  - apply String.eqb_eq in E. now rewrite process_message_empty.
  - apply String.eqb_neq in E. rewrite process_message_eq by exact E.
    rewrite length_map, length_combine, length_seq, Nat.min_id, map_map.
    set (X := chunk_text (clean_text (msg_content m)) C).
    transitivity (map (chunk_doc_id m) (map fst (combine (seq 0 (List.length X)) X))).
    + rewrite map_map. apply map_ext. now intros [i ch].
    + now rewrite map_fst_combine_seq.
Qed.

Definition no_underscore (c : ascii) : bool := negb (Ascii.eqb c "_").

Lemma no_underscore_uint (u : Decimal.uint) :
  all_chars no_underscore (NilEmpty.string_of_uint u) = true.
Proof. induction u; simpl; auto. Qed.

Lemma no_underscore_int (z : Z) : all_chars no_underscore (py_str (PInt z)) = true.
Proof.
  simpl. destruct (Z.to_int z) as [u|u]; simpl; apply no_underscore_uint.
Qed.

Lemma app_underscore_inj (a1 a2 r1 r2 : string) :
  all_chars no_underscore a1 = true -> all_chars no_underscore a2 = true ->
  String.append a1 (String "_" r1) = String.append a2 (String "_" r2) -> a1 = a2 /\ r1 = r2.
Proof.
  revert a2. induction a1 as [|c a1 IH]; intros a2 H1 H2 E; destruct a2 as [|c' a2]; simpl in *.
  - now injection E.
  - injection E as <- _. discriminate.
  - injection E as -> _. discriminate.
  - injection E as <- E. apply andb_prop in H1 as [_ H1]. apply andb_prop in H2 as [_ H2].
    destruct (IH a2 H1 H2 E) as [-> ->]. now split.
Qed.

Lemma chunk_doc_id_inj (m m' : Msg) (i j : nat) :
  chunk_doc_id m i = chunk_doc_id m' j -> msg_id m = msg_id m' /\ i = j.
Proof.
  unfold chunk_doc_id. intros E.
  destruct (app_underscore_inj _ _ _ _ (no_underscore_int _) (no_underscore_int _) E) as [E1 E2].
  injection E2 as E2. split; [exact (StorageFacts.py_str_int_inj _ _ E1) |].
  apply StorageFacts.py_str_int_inj in E2. lia.
Qed.

Lemma process_message_nth (C : nat) (m : Msg) (i : nat) (d : ProcDoc) :
  nth_error (process_message C m) i = Some d ->
  pd_id d = chunk_doc_id m i /\
  pd_metadata d =
    dict_set (dict_set (format_message_metadata m) "chunk_index" (PInt (Z.of_nat i)))
      "total_chunks" (PInt (Z.of_nat (List.length (process_message C m)))).
Proof.
  destruct (String.eqb (clean_text (msg_content m)) "") eqn:E.
  - apply String.eqb_eq in E. rewrite process_message_empty by exact E. now destruct i.
  - apply String.eqb_neq in E. rewrite process_message_eq by exact E.
    rewrite nth_error_map, StorageFacts.nth_error_combine_seq.
    destruct (nth_error (chunk_text (clean_text (msg_content m)) C) i) as [ch|]; [| discriminate].
    simpl. intros H. injection H as <-. simpl.
    rewrite length_map, length_combine, length_seq, Nat.min_id. now split.
Qed.

End ProcessorFacts.

(* ------------------------------------------------------------------ *)
(** ** Properties of [TextProcessor] *)

Module ProcessorProps.
Import PyStr PyStrFacts Py Chunk ChunkFacts Clean CleanFacts CleanLemmas Bot Processor
       ProcessorFacts.

(** X3: [process_message] returns no document when the cleaned content is
    empty; otherwise one document per chunk of [chunk_text] of the cleaned
    content, in order (the blank-chunk test never drops one); the [i]-th has
    id [{message_id}_chunk_{i}], and its metadata is the message's metadata
    with [chunk_index = i] and [total_chunks] = the number of documents. *)
Theorem process_message_documents (C : nat) (m : Msg) :
  (clean_text (msg_content m) = "" -> process_message C m = []) /\
  (clean_text (msg_content m) <> "" ->
   map pd_text (process_message C m) = chunk_text (clean_text (msg_content m)) C /\
   (forall i d, nth_error (process_message C m) i = Some d ->
      pd_id d = chunk_doc_id m i /\
      dict_get (pd_metadata d) "chunk_index" = Some (PInt (Z.of_nat i)) /\
      dict_get (pd_metadata d) "total_chunks" =
        Some (PInt (Z.of_nat (List.length (process_message C m)))) /\
      (forall k, k <> "chunk_index" -> k <> "total_chunks" ->
         dict_get (pd_metadata d) k = dict_get (format_message_metadata m) k))).
Proof.
  split; [apply process_message_empty |]. intros Hne. split.
  - rewrite process_message_texts. apply String.eqb_neq in Hne. now rewrite Hne.
  - intros i d Hd. destruct (process_message_nth C m i d Hd) as [Hid Hmd].
    rewrite Hmd. split; [exact Hid | split; [| split]].
    + rewrite dict_get_set_neq by discriminate. apply dict_get_set_eq.
    + apply dict_get_set_eq.
    + intros k H1 H2. rewrite !dict_get_set_neq by assumption. reflexivity.
Qed.

(** X4: read word by word, the documents of [process_message] are exactly
    the words of the cleaned content; every document text is non-empty,
    has no leading or trailing whitespace, and is at most [chunk_size]
    characters long unless it is a single word. *)
Theorem process_message_words (C : nat) (m : Msg) :
  concat (map (fun d => split (pd_text d)) (process_message C m)) =
    split (clean_text (msg_content m)) /\
  (forall d, In d (process_message C m) ->
     pd_text d <> "" /\ strip (pd_text d) = pd_text d /\
     (String.length (pd_text d) <= C \/ split (pd_text d) = [pd_text d])).
Proof.
  pose proof (process_message_texts C m) as Ht.
  destruct (String.eqb (clean_text (msg_content m)) "") eqn:E.
  - apply String.eqb_eq in E. rewrite process_message_empty, E by exact E.
    split; [reflexivity | intros d []].
  - apply String.eqb_neq in E.
    rewrite <- map_map with (g := split) (f := pd_text), Ht.
    split.
    + destruct (chunk_text_shape (clean_text (msg_content m)) C)
        as [[_ Ec] | [_ (gs & Ec & Hok & _ & Hcat)]]; rewrite Ec.
      * simpl. now rewrite app_nil_r.
      * rewrite map_map, <- Hcat. f_equal.
        transitivity (map (fun g => g) gs); [| apply map_id].
        apply map_ext_in. intros g Hg. rewrite Forall_forall in Hok.
        apply split_join, (Hok g Hg).
    + intros d Hd. apply (in_map pd_text) in Hd. rewrite Ht in Hd.
      destruct (chunks_nonblank _ C E (clean_text_strip _) _ Hd) as [Hs Hne].
      split; [exact Hne | split; [exact Hs |]].
      destruct (chunk_text_shape (clean_text (msg_content m)) C)
        as [[Hle Ec] | [_ (gs & Ec & Hok & Hb & _)]]; rewrite Ec in Hd.
      * destruct Hd as [Hd | []]. left. now rewrite <- Hd.
      * apply in_map_iff in Hd as (g & Hg & Hin). rewrite Forall_forall in Hb, Hok.
        rewrite <- Hg. destruct (Hb g Hin) as [Hle | [w ->]]; [now left | right].
        apply split_join. exact (proj2 (Hok [w] Hin)).
Qed.

(** X5: in [process_messages_batch], messages with distinct ids give
    documents with distinct ids. *)
Theorem process_messages_batch_ids_unique (C : nat) (ms : list Msg) :
  NoDup (map msg_id ms) -> NoDup (map pd_id (process_messages_batch C ms)).
Proof.
  unfold process_messages_batch.
  induction ms as [|m ms IH]; intros Hnd; [constructor |].
  simpl in Hnd. apply NoDup_cons_iff in Hnd as [Hm Hnd].
  simpl. rewrite map_app. apply NoDup_app.
  - rewrite process_message_ids. apply NoDup_map_NoDup_ForallPairs; [| apply seq_NoDup].
    intros i j _ _ H. exact (proj2 (chunk_doc_id_inj m m i j H)).
  - exact (IH Hnd).
  - intros x Hx Hx'. rewrite process_message_ids in Hx.
    apply in_map_iff in Hx as (i & <- & _).
    apply in_map_iff in Hx' as (d & Hd & Hin).
    apply in_flat_map in Hin as (m' & Hm' & Hin).
    apply In_nth_error in Hin as (j & Hj).
    destruct (process_message_nth C m' j d Hj) as [Hid _].
    rewrite Hid in Hd. apply chunk_doc_id_inj in Hd as [Hmm _].
    apply Hm. rewrite <- Hmm. now apply in_map.
Qed.

Definition msg_a : Msg := mkMsg 7 "alpha beta gamma" true (Some (1%Z, "G")) (2%Z, "general")
                               (5%Z, "ann") "2024-01-01T00:00:00".
Definition msg_b : Msg := mkMsg 8 "delta epsilon" true (Some (1%Z, "G")) (2%Z, "general")
                               (6%Z, "bob") "2024-01-01T00:01:00".

Lemma process_messages_batch_ids_unique_witness :
  NoDup (map msg_id [msg_a; msg_b]) /\
  NoDup (map pd_id (process_messages_batch 10 [msg_a; msg_b])).
Proof.
  assert (H : NoDup (map msg_id [msg_a; msg_b])).
  { simpl. constructor; [simpl; intros [H | []]; discriminate |].
    constructor; [intros [] | constructor]. }
  split; [exact H | exact (process_messages_batch_ids_unique 10 [msg_a; msg_b] H)].
Defined.

End ProcessorProps.

(* ------------------------------------------------------------------ *)
(** ** Properties of [collect_messages_generator] *)

Module CollectorGenProps.
Import Collector CollectorFacts CollectorGen.

(** The list loop and the generator page the same way: the list loop
    returns the concatenation of the generator's batches. *)
Lemma collect_loop_gen_loop (max : nat) (hist : list MessageId) (limit : option nat)
    (fuel : nat) :
  forall msgs last_message,
  collect_loop max hist limit fuel msgs last_message =
  option_map (fun bs => msgs ++ concat bs)
             (gen_loop max hist limit fuel (List.length msgs) last_message).
Proof.
  induction fuel as [|fuel IH]; intros msgs last_message; [reflexivity |].
  cbn [collect_loop gen_loop]. cbv zeta.
  match goal with |- context [if ?c then _ else _] => destruct c end;
    [simpl; now rewrite app_nil_r |].
  match goal with |- context [history hist ?k last_message] =>
    destruct (history hist k last_message) as [|x xs] end;
    [simpl; now rewrite app_nil_r |].
  rewrite IH, length_app.
  destruct (gen_loop max hist limit fuel (List.length msgs + List.length (x :: xs))
              (Some (last (x :: xs) 0%N))); simpl; [| reflexivity].
  now rewrite <- app_assoc.
Qed.

Lemma gen_loop_batches (max : nat) (hist : list MessageId) (limit : option nat) (fuel : nat) :
  forall total last_message bs,
  gen_loop max hist limit fuel total last_message = Some bs ->
  Forall (fun b => b <> [] /\ List.length b <= max) bs.
Proof.
  induction fuel as [|fuel IH]; intros total last_message bs H; [discriminate |].
  cbn [gen_loop] in H. cbv zeta in H.
  match type of H with context [if ?c then _ else _] => destruct c end;
    [now injection H as <- |].
  match type of H with context [history hist ?k last_message] =>
    assert (Hk : List.length (history hist k last_message) <= max)
      by (unfold history; rewrite length_firstn; destruct (limit_truthy limit); lia);
    destruct (history hist k last_message) as [|x xs] end;
    [now injection H as <- |].
  match type of H with context [gen_loop ?a ?b ?c fuel ?d ?e] =>
    destruct (gen_loop a b c fuel d e) as [rest|] eqn:E end; [| discriminate].
  injection H as <-. constructor; [split; [discriminate | exact Hk] |].
  exact (IH _ _ _ E).
Qed.

(** X6: [collect_messages_generator] always ends; its batches, concatenated,
    are exactly what [collect_channel_messages] returns for the same channel
    and limit; every batch is non-empty and has at most
    [max_messages_per_request] messages; with a positive limit the batches
    hold at most [limit] messages in total. *)
Theorem collect_messages_generator_batches (max : nat) (hist : list MessageId)
    (limit : option nat) :
  exists bs,
    collect_messages_generator max hist limit = Some bs /\
    collect_channel_messages max hist limit = Some (concat bs) /\
    Forall (fun b => b <> [] /\ List.length b <= max) bs /\
    (forall l, limit = Some l -> 0 < l -> List.length (concat bs) <= l).
Proof.
  assert (E := collect_loop_gen_loop max hist limit (S (List.length hist)) [] None).
  destruct (collect_loop_some max hist limit (S (List.length hist)) [] None)
    as [r Hr]; [simpl; lia |].
  rewrite Hr in E. change (List.length (@nil MessageId)) with 0 in E.
  unfold collect_messages_generator.
  destruct (gen_loop max hist limit (S (List.length hist)) 0 None) as [bs|] eqn:Eg;
    simpl in E; [| discriminate].
  injection E as E. exists bs. split; [reflexivity |].
  unfold collect_channel_messages. rewrite Hr, E. split; [reflexivity |].
  split; [exact (gen_loop_batches _ _ _ _ _ _ _ Eg) |].
  intros l -> Hl. rewrite <- E. apply (collect_loop_bound max hist l (S (List.length hist)) Hl [] None);
    [simpl; lia | exact Hr].
Qed.

End CollectorGenProps.

(* ------------------------------------------------------------------ *)
(** ** Properties of [ChromaStorage.search] and [ContextBuilder] *)

Module StorageProps.
Import Py Storage StorageFacts.

Lemma search_length (ranking : list Node) (n : nat) (f : option Dict) :
  List.length (search ranking n f) <= n.
Proof.
  assert (Hf : List.length (firstn n ranking) <= n) by (rewrite length_firstn; lia).
  destruct f as [f|]; [rewrite search_with_filter | rewrite search_none]; rewrite length_map;
    [| exact Hf].
  unfold retrieve. pose proof (filter_length_le (matches_filter f) (firstn n ranking)). lia.
Qed.

(** X7: [search] returns at most [n_results] results, each one a node of the
    first [n_results] of the similarity ranking (the widened second
    retrieval never contributes); an empty filter dict is the same as no
    filter. *)
Theorem search_results_from_top_n (ranking : list Node) (n : nat) (f : option Dict) :
  List.length (search ranking n f) <= n /\
  (forall x, In x (search ranking n f) ->
     exists node, In node (firstn n ranking) /\ x = format_node node) /\
  search ranking n (Some []) = search ranking n None.
Proof.
  split; [apply search_length | split; [apply search_sub_top |]].
  rewrite search_with_filter, search_none. unfold retrieve.
  now rewrite filter_true_all.
Qed.

End StorageProps.

Module ContextProps.
Import Py Storage StorageFacts StorageProps ContextBuilder.

(** X8: [search_relevant_content] with channel id [0] or [None] searches the
    whole server (the first [n_results] nodes of the ranking); with a
    non-zero channel id it returns only results that the server-wide search
    of the same size also returns, each with a [channel_id] metadata entry
    whose [str] is [str(channel_id)]. *)
Theorem search_relevant_content_scope (ranking : list Node) (n : nat) (c : Z) :
  search_relevant_content ranking n (Some 0%Z) = search_relevant_content ranking n None /\
  search_relevant_content ranking n None = map format_node (firstn n ranking) /\
  (c <> 0%Z -> forall d, In d (search_relevant_content ranking n (Some c)) ->
     In d (search_relevant_content ranking n None) /\
     exists v, dict_get (res_metadata d) "channel_id" = Some v /\ py_str v = py_str (PInt c)).
Proof.
  split; [reflexivity | split; [reflexivity |]].
  intros Hc d Hd. unfold search_relevant_content in Hd |- *.
  rewrite (proj2 (Z.eqb_neq c 0) Hc), search_with_filter in Hd.
  apply in_map_iff in Hd as (node & <- & Hn). apply filter_In in Hn as [Hin Hm].
  split; [now apply in_map |].
  apply matches_filter_spec with (key := "channel_id") (value := PStr (py_str (PInt c))) in Hm;
    [| now left].
  exact Hm.
Qed.

(** X9: [build_conversation_context] always records the query and whether a
    search was made; without search results [relevant_docs] is empty; with
    them it holds at most 5 documents; the scope is ['channel'] exactly when
    a non-zero channel id is given. *)
Theorem build_conversation_context_fields (ranking : list Node) (query : string)
    (include : bool) (channel_id : option Z) :
  ctx_query (build_conversation_context ranking query include channel_id) = Some query /\
  ctx_search_performed (build_conversation_context ranking query include channel_id) =
    Some include /\
  (include = false ->
   ctx_relevant_docs (build_conversation_context ranking query include channel_id) = Some []) /\
  (exists docs,
     ctx_relevant_docs (build_conversation_context ranking query include channel_id) = Some docs /\
     List.length docs <= 5) /\
  (ctx_search_scope (build_conversation_context ranking query include channel_id) =
     Some "channel" <-> exists c, channel_id = Some c /\ c <> 0%Z) /\
  (ctx_search_scope (build_conversation_context ranking query include channel_id) =
     Some "server" <-> ~ exists c, channel_id = Some c /\ c <> 0%Z).
Proof.
  assert (Hs : scope_of channel_id = (if (match channel_id with
                                          | Some c => negb (Z.eqb c 0) | None => false end)
                                      then "channel" else "server")).
  { destruct channel_id as [c|]; simpl; [destruct (Z.eqb c 0); reflexivity | reflexivity]. }
  assert (He : (match channel_id with Some c => negb (Z.eqb c 0) | None => false end) = true <->
               exists c, channel_id = Some c /\ c <> 0%Z).
  { destruct channel_id as [c|]; split.
    - intros H. exists c. split; [reflexivity |]. apply Z.eqb_neq. now destruct (Z.eqb c 0).
    - intros (c' & E & H). injection E as <-. apply Z.eqb_neq in H. now rewrite H.
    - discriminate.
    - intros (c' & E & _). discriminate. }
  assert (Hscope : ctx_search_scope (build_conversation_context ranking query include channel_id) =
                   Some (scope_of channel_id)) by (destruct include; reflexivity).
  rewrite Hscope, Hs.
  split; [destruct include; reflexivity |]. split; [destruct include; reflexivity |].
  split; [intros ->; reflexivity |]. split.
  - destruct include; simpl.
    + eexists. split; [reflexivity |]. unfold search_relevant_content.
      destruct channel_id as [c|]; [destruct (Z.eqb c 0) |]; apply search_length.
    + exists []. split; [reflexivity | simpl; lia].
  - destruct (match channel_id with Some c => negb (Z.eqb c 0) | None => false end).
    + split; split; try (intros; reflexivity); try (intros; now apply He).
      intros H. injection H as H. discriminate.
      intros H. exfalso. apply H. now apply He.
    + split; split; try (intros; reflexivity).
      * intros H. injection H as H. discriminate.
      * intros H. apply He in H. discriminate.
      * intros _ H. apply He in H. discriminate.
Qed.

End ContextProps.

(* ------------------------------------------------------------------ *)
(** ** Properties of [should_use_server_context] *)

Module ContextTermProps.
Import ContextBuilder.

Lemma py_lower_app (a b : string) :
  py_lower (String.append a b) = String.append (py_lower a) (py_lower b).
Proof. induction a as [|c a IH]; simpl; [reflexivity | now rewrite IH]. Qed.

Lemma py_lower_char_idem (c : ascii) : py_lower_char (py_lower_char c) = py_lower_char c.
Proof.
  destruct c as [b0 b1 b2 b3 b4 b5 b6 b7].
  destruct b0, b1, b2, b3, b4, b5, b6, b7; vm_compute; reflexivity.
Qed.

Lemma py_lower_idem (s : string) : py_lower (py_lower s) = py_lower s.
Proof. induction s as [|c s IH]; simpl; [reflexivity | now rewrite py_lower_char_idem, IH]. Qed.

Lemma prefix_app_self (t b : string) : String.prefix t (String.append t b) = true.
Proof.
  induction t as [|c t IH]; [destruct b; reflexivity |]. simpl.
  destruct (ascii_dec c c) as [_ | n]; [exact IH | now elim n].
Qed.

Lemma contains_eq (term s : string) :
  contains term s =
  String.prefix term s || match s with EmptyString => false | String _ s' => contains term s' end.
Proof. destruct s; reflexivity. Qed.

Lemma contains_middle (t a b : string) :
  contains t (String.append a (String.append t b)) = true.
Proof.
  induction a as [|c a IH].
  - change (String.append "" (String.append t b)) with (String.append t b).
    rewrite contains_eq, prefix_app_self. reflexivity.
  - change (String.append (String c a) (String.append t b))
      with (String c (String.append a (String.append t b))).
    rewrite contains_eq, IH. apply orb_true_r.
Qed.

(** X10: [should_use_server_context] is true for every query in which one
    of the server terms occurs, anywhere and also inside a longer word
    (e.g. [here] in [where]), and it ignores letter case: a query and its
    lower-cased form get the same answer. *)
Theorem should_use_server_context_terms (a b : string) (query : string) :
  Forall (fun t => should_use_server_context (String.append a (String.append t b)) = true)
         server_terms /\
  should_use_server_context (py_lower query) = should_use_server_context query.
Proof.
  split.
  - apply Forall_forall. intros t Ht. unfold should_use_server_context.
    apply existsb_exists. exists t. split; [exact Ht |].
    rewrite !py_lower_app.
    assert (Hl : py_lower t = t)
      by (destruct Ht as [<- | [<- | [<- | [<- | [<- | [<- | []]]]]]]; reflexivity).
    rewrite Hl. apply contains_middle.
  - unfold should_use_server_context. now rewrite py_lower_idem.
Qed.

End ContextTermProps.

(* ------------------------------------------------------------------ *)
(** ** Properties of [format_search_results] *)

Module AIProps.
Import Py Storage Bot AIInterface.

(** The metadata keys [format_search_results] reads. *)
Definition has_display_keys (r : SearchResult) : Prop :=
  dict_get (res_metadata r) "author_name" <> None /\
  dict_get (res_metadata r) "channel_name" <> None /\
  dict_get (res_metadata r) "timestamp" <> None.

Lemma format_entry_ok (i : nat) (r : SearchResult) :
  (exists e, format_entry i r = Ok e) <-> has_display_keys r.
Proof.
  unfold format_entry, has_display_keys, dict_index.
  destruct (dict_get (res_metadata r) "author_name"),
           (dict_get (res_metadata r) "channel_name"),
           (dict_get (res_metadata r) "timestamp"); simpl; split.
  all: first [intros [e He]; try discriminate He; repeat split; discriminate
             | intros (H1 & H2 & H3); first [eexists; reflexivity | congruence]].
Qed.

Lemma format_entries_ok (i : nat) (l : list SearchResult) :
  (exists es, format_entries i l = Ok es) <-> Forall has_display_keys l.
Proof.
  revert i. induction l as [|r l IH]; intros i; simpl.
  - split; [constructor | eauto].
  - rewrite Forall_cons_iff, <- (format_entry_ok i r), <- (IH (S i)).
    destruct (format_entry i r) as [e|e]; simpl.
    + destruct (format_entries (S i) l) as [es|e']; simpl.
      * split; [intros _; split; eauto | eauto].
      * split; [intros [x Hx]; discriminate | intros [_ [x Hx]]; discriminate].
    + split; [intros [x Hx]; discriminate | intros [[x Hx] _]; discriminate].
Qed.

Lemma format_entries_err (l : list SearchResult) (i : nat) (e : PyExc) :
  format_entries i l = Err e ->
  exists k, e = key_error k /\ In k ["author_name"; "channel_name"; "timestamp"].
Proof.
  revert i. induction l as [|x l IH]; intros i; [simpl; intros H; discriminate H |].
  simpl. unfold format_entry, dict_index.
  destruct (dict_get (res_metadata x) "author_name");
    [| simpl; intros H; injection H as <-; eexists; split; [reflexivity | simpl; tauto]].
  destruct (dict_get (res_metadata x) "channel_name");
    [| simpl; intros H; injection H as <-; eexists; split; [reflexivity | simpl; tauto]].
  destruct (dict_get (res_metadata x) "timestamp");
    [| simpl; intros H; injection H as <-; eexists; split; [reflexivity | simpl; tauto]].
  simpl. specialize (IH (S i)).
  destruct (format_entries (S i) l); simpl; [intros H; discriminate H | exact IH].
Qed.

(** X11: [format_search_results] only looks at the first three results, and
    it raises a [KeyError] exactly when one of them lacks the metadata key
    [author_name], [channel_name] or [timestamp]. *)
Theorem format_search_results_top3 (results : list SearchResult) :
  format_search_results results = format_search_results (firstn 3 results) /\
  ((exists s, format_search_results results = Ok s) <->
   Forall has_display_keys (firstn 3 results)) /\
  (forall e, format_search_results results = Err e ->
   exists k, e = key_error k /\ In k ["author_name"; "channel_name"; "timestamp"]).
Proof.
  split; [| split].
  - destruct results as [|r rs]; [reflexivity |].
    change (firstn 3 (r :: rs)) with (r :: firstn 2 rs).
    unfold format_search_results.
    change (firstn 3 (r :: firstn 2 rs)) with (r :: firstn 2 (firstn 2 rs)).
    change (firstn 3 (r :: rs)) with (r :: firstn 2 rs).
    now rewrite firstn_firstn, Nat.min_id.
  - destruct results as [|r rs]; [split; [constructor | intros _; eexists; reflexivity] |].
    unfold format_search_results. rewrite <- (format_entries_ok 0).
    destruct (format_entries 0 (firstn 3 (r :: rs))) as [es|e]; simpl.
    + split; intros _; eexists; reflexivity.
    + split; intros [x Hx]; discriminate.
  - intros e. destruct results as [|r rs]; [unfold format_search_results; intros H; discriminate H |].
    unfold format_search_results.
    destruct (format_entries 0 (firstn 3 (r :: rs))) as [es|e'] eqn:E; simpl;
      [intros H; discriminate H |].
    intros H. injection H as <-. exact (format_entries_err _ _ _ E).
Qed.

End AIProps.

(* ------------------------------------------------------------------ *)
(** ** Properties of the reply splitting in [ChatCommands] *)

Module ChatProps.
Import PyStrFacts Clean CleanFacts ChatCommands.

Lemma substring_sdrop (w : nat) (s : string) :
  String.append (String.substring 0 w s) (sdrop w s) = s.
Proof.
  revert s. induction w as [|w IH]; intros s; [now destruct s |].
  destruct s as [|c s]; [reflexivity |]. simpl. now rewrite IH.
Qed.

Lemma length_substring0 (w : nat) (s : string) :
  String.length (String.substring 0 w s) = Nat.min w (String.length s).
Proof.
  revert s. induction w as [|w IH]; intros s; [now destruct s |].
  destruct s as [|c s]; [reflexivity |]. simpl. now rewrite IH.
Qed.

Lemma concat_empty_cons (x : string) (xs : list string) :
  String.concat "" (x :: xs) = String.append x (String.concat "" xs).
Proof. destruct xs; simpl; [now rewrite sapp_nil_r | reflexivity]. Qed.

Lemma slices_fuel_spec (fuel w : nat) (s : string) :
  0 < w -> String.length s < fuel ->
  String.concat "" (slices_fuel fuel w s) = s /\
  Forall (fun p => 0 < String.length p <= w) (slices_fuel fuel w s) /\
  List.length (slices_fuel fuel w s) = (String.length s + (w - 1)) / w.
Proof.
  intros Hw. revert s. induction fuel as [|fuel IH]; intros s Hs; [lia |].
  destruct s as [|c s'].
  - simpl. split; [reflexivity | split; [constructor |]]. symmetry. apply Nat.div_small. lia.
  - set (s := String c s') in *.
    assert (Hlen : 0 < String.length s) by (unfold s; simpl; lia).
    change (slices_fuel (S fuel) w s) with (String.substring 0 w s :: slices_fuel fuel w (sdrop w s)).
    destruct (IH (sdrop w s)) as (H1 & H2 & H3); [rewrite length_sdrop; lia |].
    rewrite concat_empty_cons, H1, substring_sdrop. split; [reflexivity |].
    split; [constructor; [rewrite length_substring0; lia | exact H2] |].
    cbn [List.length]. rewrite H3, length_sdrop.
    destruct (Nat.le_gt_cases (String.length s) w) as [Hle | Hgt].
    + replace (String.length s - w) with 0 by lia.
      rewrite (Nat.div_small (0 + (w - 1))) by lia.
      replace (String.length s + (w - 1)) with ((String.length s - 1) + 1 * w) by lia.
      rewrite Nat.div_add by lia. rewrite Nat.div_small by lia. reflexivity.
    + replace (String.length s + (w - 1)) with ((String.length s - w + (w - 1)) + 1 * w) by lia.
      rewrite Nat.div_add by lia. lia.
Qed.

(** X12: the parts a long reply is sent in put back together give the reply;
    every part has between 1 and 1900 characters, and there are
    [ceil(len(reply) / 1900)] of them. *)
Theorem response_parts_spec (s : string) :
  String.concat "" (response_parts s) = s /\
  Forall (fun p => 0 < String.length p <= 1900) (response_parts s) /\
  List.length (response_parts s) = (String.length s + 1899) / 1900.
Proof. apply slices_fuel_spec; lia. Qed.

End ChatProps.

(* ------------------------------------------------------------------ *)
(** ** Properties of [start_indexing] and [_index_server] *)

Module BotProps.
Import Py Storage Bot ProcessorFacts.

Section Progress.
Variable Index : Type.
Variable index_insert : Index -> LlamaDoc -> Res Index.

Lemma store_if_any_progress (docs : list (string * Dict * string)) (st st' : BotState Index)
    (r : Res unit) :
  store_if_any Index index_insert docs st = (r, st') ->
  indexing_progress Index st' = indexing_progress Index st.
Proof.
  destruct docs as [|d ds]; simpl.
  - unfold mret. intros H. now injection H as _ <-.
  - unfold store_documents.
    destruct (add_documents Index index_insert (bot_index Index st) _ _ _);
      intros H; now injection H as _ <-.
Qed.

(** What a successful run of the batch loop leaves in [indexing_progress]:
    keys other than [processed] and [status] unchanged, and after at least
    one batch the values written for the last one. *)
Lemma index_batches_progress (total : nat) (bs : list (nat * list Msg)) :
  forall st st',
  index_batches Index index_insert total bs st = (Ok tt, st') ->
  (forall k, k <> "processed" -> k <> "status" ->
     dict_get (indexing_progress Index st') k = dict_get (indexing_progress Index st) k) /\
  (bs = [] -> indexing_progress Index st' = indexing_progress Index st) /\
  (bs <> [] ->
     dict_get (indexing_progress Index st') "processed" =
       Some (PInt (Z.of_nat (Nat.min (fst (last bs (0, [])) + 50) total))) /\
     dict_get (indexing_progress Index st') "status" =
       Some (PStr (String.append "Processed "
               (String.append (nat_str (Nat.min (fst (last bs (0, [])) + 50) total))
                  (String.append "/" (String.append (nat_str total) " messages")))))).
Proof.
  induction bs as [|[i b] bs IH]; intros st st' H.
  - simpl in H. unfold mret in H. injection H as <-.
    split; [reflexivity | split; [reflexivity | intros []; reflexivity]].
  - simpl in H. unfold mbind at 1 in H.
    destruct (store_if_any Index index_insert (prepare_documents b) st) as [r1 st1] eqn:E1.
    destruct r1 as [[]|e]; [| discriminate].
    apply store_if_any_progress in E1.
    simpl in H.
    set (p := Nat.min (i + 50) total) in H.
    set (st2 := mkBot Index (is_indexing Index st1)
                  (dict_set (dict_set (indexing_progress Index st1) "processed"
                               (PInt (Z.of_nat p)))
                     "status"
                     (PStr (String.append "Processed " (String.append (nat_str p)
                        (String.append "/" (String.append (nat_str total) " messages"))))))
                  (bot_index Index st1)) in H.
    destruct (IH st2 st' H) as (H1 & H2 & H3).
    assert (Hk : forall k, k <> "processed" -> k <> "status" ->
              dict_get (indexing_progress Index st2) k = dict_get (indexing_progress Index st) k).
    { intros k Hp Hs. simpl. rewrite !dict_get_set_neq by assumption. now rewrite E1. }
    split; [| split; [discriminate |]].
    + intros k Hp Hs. rewrite (H1 k Hp Hs). exact (Hk k Hp Hs).
    + intros _. destruct bs as [|x xs].
      * rewrite (H2 eq_refl). simpl. rewrite dict_get_set_neq by discriminate.
        rewrite !dict_get_set_eq. split; reflexivity.
      * exact (H3 ltac:(discriminate)).
Qed.

End Progress.

Lemma batches_last (fuel i : nat) (l : list Msg) :
  l <> [] -> List.length l <= 50 * fuel ->
  batches fuel i l <> [] /\ i + List.length l <= fst (last (batches fuel i l) (0, [])) + 50.
Proof.
  revert i l. induction fuel as [|fuel IH]; intros i l Hne Hl.
  - destruct l; [congruence | simpl in Hl; lia].
  - destruct l as [|x xs]; [congruence |].
    cbn [batches]. split; [discriminate |].
    assert (Hs := length_skipn 50 (x :: xs)).
    destruct (skipn 50 (x :: xs)) as [|y ys] eqn:Es.
    + assert (Hb : batches fuel (i + 50) [] = []) by (destruct fuel; reflexivity).
      rewrite Hb. simpl in Hs |- *. lia.
    + destruct (IH (i + 50) (y :: ys)) as [Hne' Hle]; [discriminate | simpl in Hs, Hl |- *; lia |].
      destruct (batches fuel (i + 50) (y :: ys)) as [|z zs]; [congruence |].
      change (last ((i, firstn 50 (x :: xs)) :: z :: zs) (0, [])) with (last (z :: zs) (0, [])).
      simpl in Hs. cbn [List.length] in Hle |- *. lia.
Qed.

(** X13: [start_indexing], called while no indexing runs: an unknown guild
    gives [(False, "Guild not found")] and an unknown non-zero channel
    [(False, "Channel not found")], both leaving the index as it was, the flag
    cleared and the progress empty; a channel id of [0] is treated as no
    channel id, so the whole server is indexed. *)
Theorem start_indexing_not_found (Index : Type) (index_insert : Index -> LlamaDoc -> Res Index)
    (guilds : list Guild) (gid : Z) (cid : option Z) (st : BotState Index) :
  is_indexing Index st = false ->
  (get_guild guilds gid = None ->
   start_indexing Index index_insert guilds gid cid st =
     ((false, "Guild not found"), mkBot Index false [] (bot_index Index st))) /\
  (forall g c, get_guild guilds gid = Some g -> cid = Some c -> c <> 0%Z ->
   get_channel g c = None ->
   start_indexing Index index_insert guilds gid cid st =
     ((false, "Channel not found"), mkBot Index false [] (bot_index Index st))) /\
  start_indexing Index index_insert guilds gid (Some 0%Z) st =
    start_indexing Index index_insert guilds gid None st.
Proof.
  intros Hf. unfold start_indexing, start_check. rewrite Hf.
  split; [| split].
  - intros Hg. unfold indexing_job. rewrite Hg. reflexivity.
  - intros g c Hg -> Hc Hch. unfold indexing_job.
    rewrite Hg, (proj2 (Z.eqb_neq c 0) Hc), Hch. reflexivity.
  - reflexivity.
Qed.

Definition guild_x : Guild :=
  mkGuild 1 "G" [mkChannel 2 "general" true
    (Ok [mkMsg 10 "first" true (Some (1%Z, "G")) (2%Z, "general") (5%Z, "ann") "t1";
         mkMsg 11 "   " true (Some (1%Z, "G")) (2%Z, "general") (5%Z, "ann") "t2";
         mkMsg 12 "second" true (Some (1%Z, "G")) (2%Z, "general") (6%Z, "bob") "t3"])].

Definition st_x : BotState (list LlamaDoc) := mkBot _ false [] [].

Lemma start_indexing_not_found_witness :
  start_indexing _ log_insert [guild_x] 9 None st_x =
    ((false, "Guild not found"), mkBot _ false [] []) /\
  start_indexing _ log_insert [guild_x] 1 (Some 5%Z) st_x =
    ((false, "Channel not found"), mkBot _ false [] []).
Proof.
  destruct (start_indexing_not_found _ log_insert [guild_x] 9 None st_x eq_refl) as [H1 _].
  destruct (start_indexing_not_found _ log_insert [guild_x] 1 (Some 5%Z) st_x eq_refl)
    as [_ [H2 _]].
  split; [exact (H1 eq_refl) |].
  exact (H2 guild_x 5%Z eq_refl eq_refl ltac:(discriminate) eq_refl).
Defined.

(** X14: when [_index_server] completes, [indexing_progress] holds
    [total] = the number of text messages; with no text message the status
    stays ['Processing messages...']; otherwise [processed] has reached
    [total] and the status reads ['Processed n/n messages']. *)
Theorem index_server_final_progress (Index : Type) (index_insert : Index -> LlamaDoc -> Res Index)
    (g : Guild) (msgs : list Msg) (st st' : BotState Index) :
  collect_server_messages g = Ok msgs ->
  index_server Index index_insert g st = (Ok tt, st') ->
  dict_get (indexing_progress Index st') "total" =
    Some (PInt (Z.of_nat (List.length (filter_text_messages msgs)))) /\
  (filter_text_messages msgs = [] ->
   dict_get (indexing_progress Index st') "status" = Some (PStr "Processing messages...")) /\
  (filter_text_messages msgs <> [] ->
   dict_get (indexing_progress Index st') "processed" =
     Some (PInt (Z.of_nat (List.length (filter_text_messages msgs)))) /\
   dict_get (indexing_progress Index st') "status" =
     Some (PStr (String.append "Processed "
             (String.append (nat_str (List.length (filter_text_messages msgs)))
                (String.append "/"
                   (String.append (nat_str (List.length (filter_text_messages msgs)))
                      " messages")))))).
Proof.
  intros Hc H. unfold index_server, mbind, lift_res in H. rewrite Hc in H.
  simpl in H.
  set (tm := filter_text_messages msgs) in *.
  destruct (index_batches_progress Index index_insert _ _ _ _ H) as (H1 & H2 & H3).
  split; [| split].
  - rewrite H1 by discriminate. simpl. rewrite dict_get_set_neq by discriminate.
    apply dict_get_set_eq.
  - intros He. rewrite H2.
    + simpl. apply dict_get_set_eq.
    + rewrite He. destruct (List.length []); reflexivity.
  - intros Hne.
    destruct (batches_last (List.length tm) 0 tm Hne ltac:(lia)) as [Hb Hle].
    destruct (H3 Hb) as [Hp Hs]. rewrite Nat.min_r in Hp, Hs by lia.
    split; [exact Hp | exact Hs].
Qed.

Lemma index_server_final_progress_witness :
  collect_server_messages guild_x =
    Ok (match ch_collected (hd (mkChannel 0 "" false (Ok [])) (g_channels guild_x)) with
        | Ok ms => ms | Err _ => [] end) /\
  dict_get (indexing_progress _ (snd (index_server _ log_insert guild_x st_x))) "processed" =
    Some (PInt 2).
Proof.
  split; [reflexivity |].
  destruct (index_server_final_progress _ log_insert guild_x
              (match ch_collected (hd (mkChannel 0 "" false (Ok [])) (g_channels guild_x)) with
               | Ok ms => ms | Err _ => [] end)
              st_x (snd (index_server _ log_insert guild_x st_x)) eq_refl eq_refl)
    as (_ & _ & H3).
  exact (proj1 (H3 ltac:(vm_compute; discriminate))).
Defined.

End BotProps.

(* ------------------------------------------------------------------ *)
(** ** Properties of [build_context_prompt] *)

Module AIPromptProps.
Import Py Storage AIInterface PyStrFacts ContextBuilder.

Definition same_outcome {A B : Type} (r1 : Res A) (r2 : Res B) : Prop :=
  match r1, r2 with
  | Ok _, Ok _ => True
  | Err e1, Err e2 => e1 = e2
  | _, _ => False
  end.

Lemma prompt_entry_same (i : nat) (r : SearchResult) :
  same_outcome (prompt_entry i r) (format_entry i r).
Proof.
  unfold prompt_entry, format_entry, dict_index, same_outcome.
  destruct (dict_get (res_metadata r) "author_name"),
           (dict_get (res_metadata r) "channel_name"),
           (dict_get (res_metadata r) "timestamp"); simpl; auto.
Qed.

Lemma prompt_entries_same (l : list SearchResult) : forall i,
  same_outcome (prompt_entries i l) (format_entries i l).
Proof.
  induction l as [|r l IH]; intros i; simpl; [exact I |].
  generalize (prompt_entry_same i r).
  destruct (prompt_entry i r), (format_entry i r); simpl; intros H; try contradiction.
  - generalize (IH (S i)).
    destruct (prompt_entries (S i) l), (format_entries (S i) l); simpl; auto.
  - exact H.
Qed.

Lemma contains_split (t a b : string) (s : string) :
  s = String.append a (String.append t b) -> contains t s = true.
Proof. intros ->. apply ContextTermProps.contains_middle. Qed.

Lemma ok_inj {A : Type} (x y : A) : @Ok A x = Ok y -> x = y.
Proof. intros H. now injection H. Qed.

Lemma prompt_entry_doc (i : nat) (r : SearchResult) (e : string) :
  prompt_entry i r = Ok e -> exists pre, e = String.append pre (res_document r).
Proof.
  unfold prompt_entry, dict_index.
  destruct (dict_get (res_metadata r) "author_name") as [a|]; [| discriminate].
  destruct (dict_get (res_metadata r) "channel_name") as [c|]; [| discriminate].
  destruct (dict_get (res_metadata r) "timestamp") as [t|]; [| discriminate].
  cbn [res_bind]. intros H. apply ok_inj in H. subst e.
  rewrite !ChatProps.concat_empty_cons. change (String.concat "" []) with "".
  rewrite sapp_nil_r, <- !sapp_assoc. eexists. reflexivity.
Qed.

Lemma prompt_entries_docs (l : list SearchResult) : forall i parts,
  prompt_entries i l = Ok parts ->
  forall r, In r l -> exists part pre, In part parts /\ part = String.append pre (res_document r).
Proof.
  induction l as [|x l IH]; intros i parts H r Hr; [destruct Hr |].
  simpl in H. destruct (prompt_entry i x) as [e|] eqn:Ex; [| discriminate H].
  simpl in H. destruct (prompt_entries (S i) l) as [es|] eqn:Es; [| discriminate H].
  simpl in H. injection H as <-.
  destruct Hr as [<- | Hr].
  - destruct (prompt_entry_doc i x e Ex) as [pre ->]. exists (String.append pre (res_document x)), pre.
    split; [left |]; reflexivity.
  - destruct (IH (S i) es Es r Hr) as (part & pre & Hin & ->).
    exists (String.append pre (res_document r)), pre. split; [right |]; auto.
Qed.

Lemma concat_in (sep part : string) (parts : list string) :
  In part parts -> exists a b, String.concat sep parts = String.append a (String.append part b).
Proof.
  induction parts as [|x xs IH]; intros Hin; [destruct Hin |].
  destruct xs as [|y ys].
  - destruct Hin as [<- | []]. exists "", "". simpl. now rewrite sapp_nil_r.
  - change (String.concat sep (x :: y :: ys))
      with (String.append x (String.append sep (String.concat sep (y :: ys)))).
    destruct Hin as [<- | Hin].
    + exists "", (String.append sep (String.concat sep (y :: ys))). reflexivity.
    + destruct (IH Hin) as (a & b & ->).
      exists (String.append x (String.append sep a)), b. now rewrite !sapp_assoc.
Qed.

(** X15: [build_context_prompt] only looks at the first three documents; it
    raises exactly when [format_search_results] raises on the same
    documents, with the same [KeyError]; and a prompt it returns contains the
    query and the full text of each of the first three documents. *)
Theorem build_context_prompt_docs (query : string) (docs : list SearchResult) :
  build_context_prompt query docs = build_context_prompt query (firstn 3 docs) /\
  (forall e, build_context_prompt query docs = Err e <-> format_search_results docs = Err e) /\
  (forall p, build_context_prompt query docs = Ok p ->
     contains query p = true /\
     Forall (fun r => contains (res_document r) p = true) (firstn 3 docs)).
Proof.
  split; [| split].
  - destruct docs as [|d ds]; [reflexivity |].
    unfold build_context_prompt. rewrite firstn_firstn. change (Nat.min 3 3) with 3.
    change (firstn 3 (d :: ds)) with (d :: firstn 2 ds). reflexivity.
  - intros e. destruct docs as [|d ds].
    + split; intros H; discriminate H.
    + unfold build_context_prompt, format_search_results.
      generalize (prompt_entries_same (firstn 3 (d :: ds)) 0).
      destruct (prompt_entries 0 (firstn 3 (d :: ds))),
               (format_entries 0 (firstn 3 (d :: ds))); simpl; intros H; try contradiction.
      * split; intros H'; discriminate H'.
      * subst. reflexivity.
  - intros p. destruct docs as [|d ds].
    + cbn [build_context_prompt]. intros H. apply ok_inj in H. subst p.
      split; [| constructor].
      rewrite !ChatProps.concat_empty_cons.
      eapply contains_split. reflexivity.
    + unfold build_context_prompt.
      destruct (prompt_entries 0 (firstn 3 (d :: ds))) as [parts|] eqn:Ep; [| discriminate].
      cbn [res_bind]. intros H. apply ok_inj in H. subst p.
      rewrite !ChatProps.concat_empty_cons. split.
      * eapply (contains_split query
          (String.append prompt_intro (String.append (String.concat (String.append nl nl) parts)
             (String.append nl (String.append nl "User question: "))))).
        now rewrite !sapp_assoc.
      * apply Forall_forall. intros r Hr.
        destruct (prompt_entries_docs _ 0 parts Ep r Hr) as (part & pre & Hin & ->).
        destruct (concat_in (String.append nl nl) _ parts Hin) as (a & b & Hc).
        rewrite Hc.
        eapply (contains_split (res_document r)
                  (String.append prompt_intro (String.append a pre))).
        now rewrite !sapp_assoc.
Qed.

End AIPromptProps.
